(** * todo-backend: the request-validation and persistence contract

    A shallow embedding of the Express route handlers of [app.js] and
    [api/index.js] over a functional model of the document store they call
    (the Mongoose models [Todo] and [Post]), and the properties of the
    handlers proved on it.

    Layout:
    - JSON values and the JavaScript notions the handlers use (truthiness,
      destructuring of [req.body], object literals with undefined members);
    - the document-store library: casts, the two schemas, and the model
      operations [create], [save], [find().sort()], [findById],
      [findByIdAndUpdate], [findByIdAndDelete];
    - the handlers, one module per source file;
    - the vocabulary of the properties, then the properties.

    The store library is a dependency of the repository, not part of it.  Its
    model follows the behaviour the library documents, for the options the
    handlers pass:
    - a query by id casts the id to an ObjectId and throws when it does not
      cast;
    - a document is validated against its schema when it is created, and an
      update runs no validator ([runValidators] is not passed);
    - an update sets the members that are passed and drops those that hold
      [undefined] (the library does so since its version 6), without upsert;
    - [timestamps] sets [createdAt] and [updatedAt] on creation and refreshes
      [updatedAt] on update. *)

From stdpp Require Import gmap strings list fin_maps sorting.
From Stdlib Require Import ZArith Ascii String.

#[local] Set Warnings "-register-all".
#[local] Open Scope Z_scope.

(** ** JSON values

    [express.json()] parses the request body into a JavaScript value.  Of a
    number the program uses two things: how it compares with 0 and 1, and the
    text JavaScript prints for it ([String(n)], which is what a cast to a
    string stores).  A number is kept as the integer it equals together with
    that text; numbers with a fractional part are outside this model. *)

Record number : Type := {
  number_value : Z;
  number_text : string;
}.

Inductive json : Type :=
| JNull
| JBool (b : bool)
| JNum (n : number)
| JStr (s : string)
| JArr (l : list json)
| JObj (o : gmap string json).

(** A destructured variable ([const { title, done } = req.body]) holds the
    member's value, or [undefined] when the body has no such member: [None]
    stands for [undefined]. *)
Abbreviation value := (option json).

(** An object literal such as [{ title, done }]: every listed key is a member,
    possibly holding [undefined]. *)
Abbreviation literal := (gmap string (option json)).

(** Reading a member of a literal: a missing member and a member that holds
    [undefined] both read as [undefined]. *)
Definition member (o : literal) (k : string) : value := mjoin (o !! k).

(** JavaScript truthiness, as tested by [!title]. *)
Definition truthy (v : value) : bool :=
  match v with
  | None | Some JNull => false
  | Some (JBool b) => b
  | Some (JNum n) => negb (number_value n =? 0)
  | Some (JStr s) => negb (String.eqb s "")
  | Some (JArr _) | Some (JObj _) => true
  end.

(** ** Errors thrown by the store library *)

Inductive exn : Type :=
| CastError (path : string)
| ValidationError (path : string).

Inductive result (A : Type) : Type :=
| Ok (a : A)
| Throw (e : exn).
Arguments Ok {A} a.
Arguments Throw {A} e.

#[global] Instance result_ret : MRet result := @Ok.
#[global] Instance result_bind : MBind result := λ A B f r,
  match r with Ok a => f a | Throw e => Throw e end.

Fixpoint mapR {A B} (f : A → result B) (l : list A) : result (list B) :=
  match l with
  | [] => Ok []
  | x :: l' => y ← f x; ys ← mapR f l'; Ok (y :: ys)
  end.

(** ** Casts of the store library

    A cast yields [Some v], or [None] for the JSON value [null], which every
    path accepts unchanged; a value that cannot be cast throws. *)

(** Cast to [String]: strings are kept, a number becomes the text JavaScript
    prints for it and a boolean its name, an object is replaced by its [_id]
    when that is a non-empty string, arrays and other objects are refused. *)
Definition castString (path : string) (v : json) : result (option string) :=
  match v with
  | JNull => Ok None
  | JStr s => Ok (Some s)
  | JNum n => Ok (Some (number_text n))
  | JBool b => Ok (Some (if b then "true" else "false"))
  | JArr _ => Throw (CastError path)
  | JObj o =>
      match o !! "_id" with
      | Some (JStr s) => if String.eqb s "" then Throw (CastError path) else Ok (Some s)
      | _ => Throw (CastError path)
      end
  end.

(** Cast to [Boolean]: [true, 'true', 1, '1', 'yes'] convert to true and
    [false, 'false', 0, '0', 'no'] to false. *)
Definition castBoolean (path : string) (v : json) : result (option bool) :=
  match v with
  | JNull => Ok None
  | JBool b => Ok (Some b)
  | JNum n =>
      if number_value n =? 1 then Ok (Some true)
      else if number_value n =? 0 then Ok (Some false)
      else Throw (CastError path)
  | JStr s =>
      if bool_decide (s ∈ ["true"; "1"; "yes"]) then Ok (Some true)
      else if bool_decide (s ∈ ["false"; "0"; "no"]) then Ok (Some false)
      else Throw (CastError path)
  | _ => Throw (CastError path)
  end.

(** Cast to an array path: a value that is not an array is wrapped into a
    one-element array, then every element is cast. *)
Definition castArray {A} (elem : json → result A) (v : json) : result (option (list A)) :=
  match v with
  | JNull => Ok None
  | JArr l => l' ← mapR elem l; Ok (Some l')
  | _ => x ← elem v; Ok (Some [x])
  end.

(** Cast of an id to the store's id format: 24 hexadecimal digits, read
    without regard to letter case. *)
Definition hex_digit (c : ascii) : option ascii :=
  match c with
  | "0" | "1" | "2" | "3" | "4" | "5" | "6" | "7" | "8" | "9"
  | "a" | "b" | "c" | "d" | "e" | "f" => Some c
  | "A" => Some "a" | "B" => Some "b" | "C" => Some "c"
  | "D" => Some "d" | "E" => Some "e" | "F" => Some "f"
  | _ => None
  end%char.

Fixpoint hex_string (s : string) : option string :=
  match s with
  | EmptyString => Some EmptyString
  | String c s' => c' ← hex_digit c; r ← hex_string s'; Some (String c' r)
  end.

Definition castObjectId (id : string) : option string :=
  if (String.length id =? 24)%nat then hex_string id else None.

(** ** Documents

    A stored field holds [Some v], or [None] when it is [null] or unset.  The
    [_id] is the lower-case hexadecimal form of the store-assigned id; the
    timestamps are milliseconds.  The version key and the ids of embedded
    media entries are not represented.  An item of [media] is an embedded
    document, or a falsy value ([null], [false], [0] or the empty string)
    that the cast of the array left in place. *)

Record TodoDoc : Type := {
  todo_id : string;
  todo_title : option string;
  todo_done : option bool;
  todo_createdAt : Z;
  todo_updatedAt : Z;
}.

Record MediaEntry : Type := {
  media_type : option string;
  media_url : option string;
}.

Inductive MediaItem : Type :=
| Skipped (v : json)
| Embedded (m : MediaEntry).

Record PostDoc : Type := {
  post_id : string;
  post_title : option string;
  post_content : option string;
  post_tags : option (list (option string));
  post_coverImage : option string;
  post_media : option (list MediaItem);
  post_createdAt : Z;
  post_updatedAt : Z;
}.

(** The two collections of the database. *)
Record store : Type := {
  Todos : list TodoDoc;
  Posts : list PostDoc;
}.

(** What the process reads from its surroundings while it serves one request:
    the id the driver generates for a new document (an ObjectId in its
    lower-case hexadecimal form) and the clock. *)
Record env : Type := {
  new_ObjectId : string;
  Date_now : Z;
}.

(** ** Schema paths *)

(** Setting a path when a document is built: [undefined] leaves the path to
    its default, any other value is cast. *)
Definition set_path {A} (cast : json → result (option A)) (dflt : option A)
    (raw : value) : result (option A) :=
  match raw with
  | None => Ok dflt
  | Some v => cast v
  end.

(** The [required] validator of a [String] path: the value must be set, not
    null and not the empty string. *)
Definition required_string (path : string) (v : option string) : result unit :=
  match v with
  | Some s => if String.eqb s "" then Throw (ValidationError path) else Ok ()
  | None => Throw (ValidationError path)
  end.

(** The [enum] validator: an unset value passes, it is [required] that refuses
    it. *)
Definition enum_string (path : string) (allowed : list string) (v : option string) : result unit :=
  match v with
  | Some s => if bool_decide (s ∈ allowed) then Ok () else Throw (ValidationError path)
  | None => Ok ()
  end.

(** Setting a path in an update: members holding [undefined] are dropped from
    the update, the others are cast to the path's type.  [None] means the path
    is not part of the update. *)
Definition update_path {A} (cast : json → result (option A)) (raw : value)
    : result (option (option A)) :=
  match raw with
  | None => Ok None
  | Some v => x ← cast v; Ok (Some x)
  end.

(** A path of the update replaces the stored value, a path that is not part of
    the update keeps it. *)
Definition merge_path {A} (upd : option (option A)) (old : option A) : option A :=
  match upd with
  | Some v => v
  | None => old
  end.

(** ** [todoSchema]

    [{ title: { type: String, required: true },
       done: { type: Boolean, default: false } }, { timestamps: true }] *)
Module todoSchema.

(** [new Todo(fields)] followed by validation. *)
Definition build (fields : literal) (e : env) : result TodoDoc :=
  title ← set_path (castString "title") None (member fields "title");
  done ← set_path (castBoolean "done") (Some false) (member fields "done");
  _ ← required_string "title" title;
  Ok {| todo_id := new_ObjectId e; todo_title := title; todo_done := done;
        todo_createdAt := Date_now e; todo_updatedAt := Date_now e |}.

Record update : Type := {
  set_title : option (option string);
  set_done : option (option bool);
}.

Definition castUpdate (fields : literal) : result update :=
  title ← update_path (castString "title") (member fields "title");
  done ← update_path (castBoolean "done") (member fields "done");
  Ok {| set_title := title; set_done := done |}.

(** Update validators are off unless [runValidators] is passed; the
    timestamps option refreshes [updatedAt]. *)
Definition applyUpdate (u : update) (now : Z) (d : TodoDoc) : TodoDoc :=
  {| todo_id := todo_id d;
     todo_title := merge_path (set_title u) (todo_title d);
     todo_done := merge_path (set_done u) (todo_done d);
     todo_createdAt := todo_createdAt d;
     todo_updatedAt := now |}.

End todoSchema.

(** ** [postSchema]

    [{ title: { type: String, required: true },
       content: { type: String, default: '' },
       tags: { type: [String], default: [] },
       coverImage: { type: String, default: '' },
       media: [{ type: { type: String, enum: ['image', 'video', 'audio'],
                         required: true },
                 url: { type: String, required: true } }] },
     { timestamps: true }] *)
Module postSchema.

Definition media_kinds : list string := ["image"; "video"; "audio"].

(** The cast of the [media] array skips a falsy entry and leaves it in place;
    an object is cast to an embedded document; any other entry is refused. *)
Definition castMediaEntry (v : json) : result MediaItem :=
  if negb (truthy (Some v)) then Ok (Skipped v)
  else
    match v with
    | JObj o =>
        type ← set_path (castString "media.type") None (o !! "type");
        url ← set_path (castString "media.url") None (o !! "url");
        Ok (Embedded {| media_type := type; media_url := url |})
    | _ => Throw (CastError "media")
    end.

Definition validateMediaEntry (m : MediaEntry) : result unit :=
  _ ← required_string "media.type" (media_type m);
  _ ← enum_string "media.type" media_kinds (media_type m);
  required_string "media.url" (media_url m).

(** Validation of the array sidesteps a [null] item and runs the validators
    of an embedded document; another item that was left in place cannot be
    made into a document and fails. *)
Definition validateMediaItem (item : MediaItem) : result unit :=
  match item with
  | Embedded m => validateMediaEntry m
  | Skipped JNull => Ok ()
  | Skipped _ => Throw (ValidationError "media")
  end.

Definition validateMedia (media : option (list MediaItem)) : result unit :=
  match media with
  | Some l => _ ← mapR validateMediaItem l; Ok ()
  | None => Ok ()
  end.

(** [new Post(fields)] followed by validation. *)
Definition build (fields : literal) (e : env) : result PostDoc :=
  title ← set_path (castString "title") None (member fields "title");
  content ← set_path (castString "content") (Some "") (member fields "content");
  tags ← set_path (castArray (castString "tags")) (Some []) (member fields "tags");
  coverImage ← set_path (castString "coverImage") (Some "") (member fields "coverImage");
  media ← set_path (castArray castMediaEntry) (Some []) (member fields "media");
  _ ← required_string "title" title;
  _ ← validateMedia media;
  Ok {| post_id := new_ObjectId e; post_title := title; post_content := content;
        post_tags := tags; post_coverImage := coverImage; post_media := media;
        post_createdAt := Date_now e; post_updatedAt := Date_now e |}.

Record update : Type := {
  set_title : option (option string);
  set_content : option (option string);
  set_tags : option (option (list (option string)));
  set_coverImage : option (option string);
  set_media : option (option (list MediaItem));
}.

Definition castUpdate (fields : literal) : result update :=
  title ← update_path (castString "title") (member fields "title");
  content ← update_path (castString "content") (member fields "content");
  tags ← update_path (castArray (castString "tags")) (member fields "tags");
  coverImage ← update_path (castString "coverImage") (member fields "coverImage");
  media ← update_path (castArray castMediaEntry) (member fields "media");
  Ok {| set_title := title; set_content := content; set_tags := tags;
        set_coverImage := coverImage; set_media := media |}.

(** Update validators are off unless [runValidators] is passed: neither
    [required] nor [enum] is checked here. *)
Definition applyUpdate (u : update) (now : Z) (d : PostDoc) : PostDoc :=
  {| post_id := post_id d;
     post_title := merge_path (set_title u) (post_title d);
     post_content := merge_path (set_content u) (post_content d);
     post_tags := merge_path (set_tags u) (post_tags d);
     post_coverImage := merge_path (set_coverImage u) (post_coverImage d);
     post_media := merge_path (set_media u) (post_media d);
     post_createdAt := post_createdAt d;
     post_updatedAt := now |}.

End postSchema.

(** ** Models

    [mongoose.model(name, schema)] binds a schema to a collection.  The
    operations below are shared by every model. *)

Class Model (D : Type) : Type := {
  Update : Type;
  collection : store → list D;
  with_collection : list D → store → store;
  _id : D → string;
  createdAt : D → Z;
  build : literal → env → result D;
  castUpdate : literal → result Update;
  applyUpdate : Update → Z → D → D;
}.
Arguments Update {D} _.

(** [const Todo = mongoose.model('Todo', todoSchema)] *)
Definition Todo : Model TodoDoc := {|
  Update := todoSchema.update;
  collection := Todos;
  with_collection := λ l st, {| Todos := l; Posts := Posts st |};
  _id := todo_id;
  createdAt := todo_createdAt;
  build := todoSchema.build;
  castUpdate := todoSchema.castUpdate;
  applyUpdate := todoSchema.applyUpdate;
|}.

(** [const Post = mongoose.model('Post', postSchema)] *)
Definition Post : Model PostDoc := {|
  Update := postSchema.update;
  collection := Posts;
  with_collection := λ l st, {| Todos := Todos st; Posts := l |};
  _id := post_id;
  createdAt := post_createdAt;
  build := postSchema.build;
  castUpdate := postSchema.castUpdate;
  applyUpdate := postSchema.applyUpdate;
|}.

(** Store operations run against the surroundings of the request and the
    database; they return a value or throw, and leave a database behind. *)
Definition M (A : Type) : Type := env → store → result A * store.

#[global] Instance M_ret : MRet M := λ A a _ st, (Ok a, st).
#[global] Instance M_bind : MBind M := λ A B f m e st,
  match m e st with
  | (Ok a, st') => f a e st'
  | (Throw x, st') => (Throw x, st')
  end.

Definition throw {A} (x : exn) : M A := λ _ st, (Throw x, st).
Definition liftR {A} (r : result A) : M A := λ _ st, (r, st).
Definition clock : M Z := λ e st, (Ok (Date_now e), st).
Definition surroundings : M env := λ e st, (Ok e, st).
Definition read {D} (model : Model D) : M (list D) := λ _ st, (Ok (collection st), st).
Definition write {D} (model : Model D) (l : list D) : M unit :=
  λ _ st, (Ok (), with_collection l st).

Section Operations.
Context {D : Type} (model : Model D).

(** The first document of the collection with the given id. *)
Fixpoint find_doc (oid : string) (l : list D) : option D :=
  match l with
  | [] => None
  | d :: l' => if bool_decide (_id d = oid) then Some d else find_doc oid l'
  end.

Fixpoint replace_doc (oid : string) (d' : D) (l : list D) : list D :=
  match l with
  | [] => []
  | d :: l' =>
      if bool_decide (_id d = oid) then d' :: l' else d :: replace_doc oid d' l'
  end.

Fixpoint remove_doc (oid : string) (l : list D) : list D :=
  match l with
  | [] => []
  | d :: l' => if bool_decide (_id d = oid) then l' else d :: remove_doc oid l'
  end.

(** The id of a query is cast to the id format first; an id that does not
    cast makes the query throw. *)
Definition castId (id : string) : M string :=
  match castObjectId id with
  | Some oid => mret oid
  | None => throw (CastError "_id")
  end.

(** [new Model(fields)]: the document under construction.  What went wrong
    while casting its fields surfaces, with the validators' verdict, when it
    is saved. *)
Definition new (fields : literal) : env → result D := build fields.

(** [doc.save()]: validate, then insert. *)
Definition save (doc : env → result D) : M D :=
  e ← surroundings;
  d ← liftR (doc e);
  docs ← read model;
  _ ← write model (docs ++ [d]);
  mret d.

(** [Model.create(fields)] *)
Definition create (fields : literal) : M D := save (new fields).

(** [Model.find().sort({ createdAt: -1 })]: every document, the later
    created first. *)
Definition createdAt_desc (a b : D) : Prop := createdAt b ≤ createdAt a.

#[global] Instance createdAt_desc_dec : RelDecision createdAt_desc.
Proof. intros a b. unfold createdAt_desc. apply _. Defined.

Definition find_sort_createdAt_desc : M (list D) :=
  docs ← read model;
  mret (merge_sort createdAt_desc docs).

(** [Model.findById(id)] *)
Definition findById (id : string) : M (option D) :=
  oid ← castId id;
  docs ← read model;
  mret (find_doc oid docs).

(** [Model.findByIdAndUpdate(id, fields, { new: true })]: no upsert, and the
    document returned is the one after the update. *)
Definition findByIdAndUpdate (id : string) (fields : literal) : M (option D) :=
  oid ← castId id;
  u ← liftR (castUpdate fields);
  now ← clock;
  docs ← read model;
  match find_doc oid docs with
  | None => mret None
  | Some d =>
      let d' := applyUpdate u now d in
      _ ← write model (replace_doc oid d' docs);
      mret (Some d')
  end.

(** [Model.findByIdAndDelete(id)] *)
Definition findByIdAndDelete (id : string) : M (option D) :=
  oid ← castId id;
  docs ← read model;
  match find_doc oid docs with
  | None => mret None
  | Some d =>
      _ ← write model (remove_doc oid docs);
      mret (Some d)
  end.

End Operations.

(** ** Requests and responses

    Of a request the handlers read the headers (Node gives their names in
    lower case), the [:id] of the route, and the members of the object that
    [express.json()] left in [req.body]; a body without members stands for a
    request that carried none. *)

Record request : Type := {
  headers : gmap string string;
  params_id : string;
  body : gmap string json;
}.

Inductive payload : Type :=
| Message (message : string)
| TodoJson (doc : TodoDoc)
| TodosJson (docs : list TodoDoc)
| PostJson (doc : PostDoc)
| PostsJson (docs : list PostDoc).

Record response : Type := {
  status : nat;
  sent : payload;
}.

(** [res.status(code).json(x)]; [res.json(x)] answers with status 200. *)
Definition status_json (code : nat) (x : payload) : response :=
  {| status := code; sent := x |}.
Definition res_json (x : payload) : response := status_json 200 x.

(** A route handler: [async (req, res) => { try { ... } catch (err) { ... } }].
    The [catch] block of every handler only sends a response. *)
Definition handler : Type := request → env → store → response * store.

Definition try_catch (block : M response) (catch : exn → response)
    : env → store → response * store :=
  λ e st,
    match block e st with
    | (Ok r, st') => (r, st')
    | (Throw x, st') => (catch x, st')
    end.

Definition title_required : payload := Message "title 是必填的".
Definition server_error : payload := Message "服务器错误".
Definition todo_missing : payload := Message "Todo 不存在".
Definition post_missing : payload := Message "文章不存在".
Definition deleted : payload := Message "删除成功".
Definition unauthorized : payload := Message "未授权：管理密钥错误".

(** ** The handlers of [app.js] *)
Module App.

(** [app.post('/todos', ...)] *)
Definition post_todos : handler := λ req,
  try_catch
    (let title := body req !! "title" in
     let done := body req !! "done" in
     if negb (truthy title) then mret (status_json 400 title_required)
     else
       let todo := new Todo {[ "title" := title; "done" := done ]} in
       saved ← save Todo todo;
       mret (status_json 201 (TodoJson saved)))
    (λ err, status_json 500 server_error).

(** [app.get('/todos', ...)] *)
Definition get_todos : handler := λ req,
  try_catch
    (todos ← find_sort_createdAt_desc Todo;
     mret (res_json (TodosJson todos)))
    (λ err, status_json 500 server_error).

(** [app.get('/todos/:id', ...)] *)
Definition get_todos_id : handler := λ req,
  try_catch
    (todo ← findById Todo (params_id req);
     match todo with
     | None => mret (status_json 404 todo_missing)
     | Some todo => mret (res_json (TodoJson todo))
     end)
    (λ err, status_json 500 server_error).

(** [app.put('/todos/:id', ...)] *)
Definition put_todos_id : handler := λ req,
  try_catch
    (let title := body req !! "title" in
     let done := body req !! "done" in
     updated ← findByIdAndUpdate Todo (params_id req)
                 {[ "title" := title; "done" := done ]};
     match updated with
     | None => mret (status_json 404 todo_missing)
     | Some updated => mret (res_json (TodoJson updated))
     end)
    (λ err, status_json 500 server_error).

(** [app.delete('/todos/:id', ...)] *)
Definition delete_todos_id : handler := λ req,
  try_catch
    (deleted_doc ← findByIdAndDelete Todo (params_id req);
     match deleted_doc with
     | None => mret (status_json 404 todo_missing)
     | Some _ => mret (res_json deleted)
     end)
    (λ err, status_json 500 server_error).

(** [app.get('/posts', ...)] *)
Definition get_posts : handler := λ req,
  try_catch
    (posts ← find_sort_createdAt_desc Post;
     mret (res_json (PostsJson posts)))
    (λ err, status_json 500 server_error).

(** [app.post('/posts', ...)] *)
Definition post_posts : handler := λ req,
  try_catch
    (let title := body req !! "title" in
     let content := body req !! "content" in
     let tags := body req !! "tags" in
     let coverImage := body req !! "coverImage" in
     let media := body req !! "media" in
     if negb (truthy title) then mret (status_json 400 title_required)
     else
       doc ← create Post {[ "title" := title; "content" := content;
                            "tags" := tags; "coverImage" := coverImage;
                            "media" := media ]};
       mret (status_json 201 (PostJson doc)))
    (λ err, status_json 500 server_error).

(** [app.get('/posts/:id', ...)] *)
Definition get_posts_id : handler := λ req,
  try_catch
    (post ← findById Post (params_id req);
     match post with
     | None => mret (status_json 404 post_missing)
     | Some post => mret (res_json (PostJson post))
     end)
    (λ err, status_json 500 server_error).

(** [app.put('/posts/:id', ...)] *)
Definition put_posts_id : handler := λ req,
  try_catch
    (let title := body req !! "title" in
     let content := body req !! "content" in
     let tags := body req !! "tags" in
     let coverImage := body req !! "coverImage" in
     let media := body req !! "media" in
     updated ← findByIdAndUpdate Post (params_id req)
                 {[ "title" := title; "content" := content; "tags" := tags;
                    "coverImage" := coverImage; "media" := media ]};
     match updated with
     | None => mret (status_json 404 post_missing)
     | Some updated => mret (res_json (PostJson updated))
     end)
    (λ err, status_json 500 server_error).

(** [app.delete('/posts/:id', ...)] *)
Definition delete_posts_id : handler := λ req,
  try_catch
    (deleted_doc ← findByIdAndDelete Post (params_id req);
     match deleted_doc with
     | None => mret (status_json 404 post_missing)
     | Some _ => mret (res_json deleted)
     end)
    (λ err, status_json 500 server_error).

End App.

(** ** The handlers of [api/index.js]

    The entry point that is deployed.  Its post routes that write check the
    [x-admin-key] header against [ADMIN_KEY]; its todo update sets [done]
    only. *)
Module Api.
Section Configured.

(** [process.env.ADMIN_KEY], read once when the process starts. *)
Variable process_env_ADMIN_KEY : option string.

(** [const ADMIN_KEY = process.env.ADMIN_KEY || 'dagu-admin-key'] *)
Definition ADMIN_KEY : string :=
  match process_env_ADMIN_KEY with
  | Some k => if String.eqb k "" then "dagu-admin-key" else k
  | None => "dagu-admin-key"
  end.

(** [key !== ADMIN_KEY], for [const key = req.headers['x-admin-key']] *)
Definition key_differs (key : option string) : bool :=
  negb (bool_decide (key = Some ADMIN_KEY)).

(** [app.post('/todos', ...)] *)
Definition post_todos : handler := λ req,
  try_catch
    (let title := body req !! "title" in
     let done := body req !! "done" in
     if negb (truthy title) then mret (status_json 400 title_required)
     else
       todo ← create Todo {[ "title" := title; "done" := done ]};
       mret (status_json 201 (TodoJson todo)))
    (λ err, status_json 500 server_error).

(** [app.get('/todos', ...)] *)
Definition get_todos : handler := λ req,
  try_catch
    (todos ← find_sort_createdAt_desc Todo;
     mret (res_json (TodosJson todos)))
    (λ err, status_json 500 server_error).

(** [app.put('/todos/:id', ...)] *)
Definition put_todos_id : handler := λ req,
  try_catch
    (let id := params_id req in
     let done := body req !! "done" in
     updated ← findByIdAndUpdate Todo id {[ "done" := done ]};
     match updated with
     | None => mret (status_json 404 todo_missing)
     | Some updated => mret (res_json (TodoJson updated))
     end)
    (λ err, status_json 500 server_error).

(** [app.delete('/todos/:id', ...)] *)
Definition delete_todos_id : handler := λ req,
  try_catch
    (let id := params_id req in
     deleted_doc ← findByIdAndDelete Todo id;
     match deleted_doc with
     | None => mret (status_json 404 todo_missing)
     | Some _ => mret (res_json deleted)
     end)
    (λ err, status_json 500 server_error).

(** [app.get('/posts', ...)] *)
Definition get_posts : handler := λ req,
  try_catch
    (posts ← find_sort_createdAt_desc Post;
     mret (res_json (PostsJson posts)))
    (λ err, status_json 500 server_error).

(** [app.post('/posts', ...)] *)
Definition post_posts : handler := λ req,
  try_catch
    (let key := headers req !! "x-admin-key" in
     if key_differs key then mret (status_json 401 unauthorized)
     else
       let title := body req !! "title" in
       let content := body req !! "content" in
       let tags := body req !! "tags" in
       let coverImage := body req !! "coverImage" in
       let media := body req !! "media" in
       if negb (truthy title) then mret (status_json 400 title_required)
       else
         doc ← create Post {[ "title" := title; "content" := content;
                              "tags" := tags; "coverImage" := coverImage;
                              "media" := media ]};
         mret (status_json 201 (PostJson doc)))
    (λ err, status_json 500 server_error).

(** [app.get('/posts/:id', ...)] *)
Definition get_posts_id : handler := λ req,
  try_catch
    (post ← findById Post (params_id req);
     match post with
     | None => mret (status_json 404 post_missing)
     | Some post => mret (res_json (PostJson post))
     end)
    (λ err, status_json 500 server_error).

(** [app.put('/posts/:id', ...)] *)
Definition put_posts_id : handler := λ req,
  try_catch
    (let key := headers req !! "x-admin-key" in
     if key_differs key then mret (status_json 401 unauthorized)
     else
       let id := params_id req in
       let title := body req !! "title" in
       let content := body req !! "content" in
       let tags := body req !! "tags" in
       let coverImage := body req !! "coverImage" in
       let media := body req !! "media" in
       updated ← findByIdAndUpdate Post id
                   {[ "title" := title; "content" := content; "tags" := tags;
                      "coverImage" := coverImage; "media" := media ]};
       match updated with
       | None => mret (status_json 404 post_missing)
       | Some updated => mret (res_json (PostJson updated))
       end)
    (λ err, status_json 500 server_error).

(** [app.delete('/posts/:id', ...)] *)
Definition delete_posts_id : handler := λ req,
  try_catch
    (let key := headers req !! "x-admin-key" in
     if key_differs key then mret (status_json 401 unauthorized)
     else
       deleted_doc ← findByIdAndDelete Post (params_id req);
       match deleted_doc with
       | None => mret (status_json 404 post_missing)
       | Some _ => mret (res_json deleted)
       end)
    (λ err, status_json 500 server_error).

End Configured.
End Api.

(** ** An earlier [app.js]

    The revision that introduced the upload route; its post update passes
    [title], [content] and [tags] only. *)
Module EarlierApp.

(** [app.put('/posts/:id', ...)] *)
Definition put_posts_id : handler := λ req,
  try_catch
    (let id := params_id req in
     let title := body req !! "title" in
     let content := body req !! "content" in
     let tags := body req !! "tags" in
     updated ← findByIdAndUpdate Post id
                 {[ "title" := title; "content" := content; "tags" := tags ]};
     match updated with
     | None => mret (status_json 404 post_missing)
     | Some updated => mret (res_json (PostJson updated))
     end)
    (λ err, status_json 500 server_error).

End EarlierApp.

(** ** The upload route of [api/index.js]

    [app.post('/upload', upload.single('file'), ...)].  The media host is
    outside the repository: what [cloudinary.uploader.upload_stream] does with
    the buffer piped into it is taken as given. *)
Module Upload.

Record upload_request : Type := {
  upload_headers : gmap string string;
  file : option (list Byte.byte);
}.

(** The [result] the host passes to the callback. *)
Record upload_result : Type := {
  secure_url : string;
  public_id : string;
  resource_type : string;
}.

(** The upload throws inside the [try] block, or calls back with an error, or
    calls back with a result. *)
Inductive upstream : Type :=
| Thrown
| CallbackError
| CallbackResult (r : upload_result).

Inductive upload_payload : Type :=
| UploadMessage (message : string)
| UploadedJson (url public_id resource_type : string).

Record upload_response : Type := {
  upload_status : nat;
  upload_sent : upload_payload;
}.

Section Configured.

(** [process.env.ADMIN_KEY], and the media host. *)
Variable process_env_ADMIN_KEY : option string.
Variable upload_stream : list Byte.byte → upstream.

Definition post_upload (req : upload_request) : upload_response :=
  let key := upload_headers req !! "x-admin-key" in
  if Api.key_differs process_env_ADMIN_KEY key then
    {| upload_status := 401; upload_sent := UploadMessage "未授权：管理密钥错误" |}
  else
    match file req with
    | None => {| upload_status := 400; upload_sent := UploadMessage "没有收到文件" |}
    | Some buffer =>
        match upload_stream buffer with
        | Thrown =>
            {| upload_status := 500; upload_sent := UploadMessage "服务器错误" |}
        | CallbackError =>
            {| upload_status := 500; upload_sent := UploadMessage "上传失败" |}
        | CallbackResult result =>
            {| upload_status := 200;
               upload_sent := UploadedJson (secure_url result) (public_id result)
                                (resource_type result) |}
        end
    end.

End Configured.
End Upload.

(** ** Post creation in the earlier [app.js]

    The handler compares the header with [ADMIN_KEY], an identifier that this
    revision of the file declares nowhere. *)
Module EarlierPosts.

(** What the [try] block of a handler can throw. *)
Inductive thrown : Type :=
| ReferenceError (name : string)
| StoreError (x : exn).

(** The string constants declared at the top level of the file:
    [const MONGODB_URI = process.env.MONGODB_URI || 'mongodb://127.0.0.1:27017/todo_db']. *)
Definition top_level (process_env_MONGODB_URI : option string) : gmap string string :=
  {[ "MONGODB_URI" :=
       match process_env_MONGODB_URI with
       | Some uri => if String.eqb uri "" then "mongodb://127.0.0.1:27017/todo_db" else uri
       | None => "mongodb://127.0.0.1:27017/todo_db"
       end ]}.

(** Reading an identifier that is not bound throws. *)
Definition identifier (scope : gmap string string) (name : string) : thrown + string :=
  match scope !! name with
  | Some v => inr v
  | None => inl (ReferenceError name)
  end.

(** [app.post('/posts', ...)]: once the key has matched, the rest of the
    block is that of [app.js]. *)
Definition post_posts (process_env_MONGODB_URI : option string) : handler :=
  λ req e st,
    let key := headers req !! "x-admin-key" in
    match identifier (top_level process_env_MONGODB_URI) "ADMIN_KEY" with
    | inl err => (status_json 500 server_error, st)
    | inr admin_key =>
        if negb (bool_decide (key = Some admin_key)) then
          (status_json 401 (Message "未授权：缺少或错误的管理密钥"), st)
        else App.post_posts req e st
    end.

End EarlierPosts.

(** * Vocabulary of the properties *)

(** An id resolves when it casts to the id of a stored document. *)
Definition resolves {D} (model : Model D) (id : string) (st : store) : Prop :=
  ∃ oid d, castObjectId id = Some oid ∧ find_doc model oid (collection st) = Some d.

(** A media entry as the schema wants it: a type among the three kinds and a
    url that is present. *)
Definition media_entry_ok (m : MediaEntry) : Prop :=
  ∃ type url,
    media_type m = Some type ∧ type ∈ postSchema.media_kinds
    ∧ media_url m = Some url ∧ url ≠ "".

(** The media of a post are valid when every item is an embedded document
    that is a valid entry. *)
Definition media_ok (doc : PostDoc) : Prop :=
  match post_media doc with
  | Some l => Forall (λ item, ∃ m, item = Embedded m ∧ media_entry_ok m) l
  | None => True
  end.

(** The weaker property that creation keeps: every embedded document among
    the media is a valid entry (an item left in place is not looked at). *)
Definition embedded_media_ok (doc : PostDoc) : Prop :=
  match post_media doc with
  | Some l => Forall (λ item, ∀ m, item = Embedded m → media_entry_ok m) l
  | None => True
  end.

(** ** Fields of their schema type

    A supplied value read as a value of the type of its field, without any
    conversion: a string; an array of strings; an array of objects that each
    hold one of the three kinds as [type] and a non-empty string as [url]. *)
Definition as_string (v : json) : option string :=
  match v with
  | JStr s => Some s
  | _ => None
  end.

Definition as_tags (v : json) : option (list string) :=
  match v with
  | JArr l => mapM as_string l
  | _ => None
  end.

Definition as_media_entry (v : json) : option MediaEntry :=
  match v with
  | JObj o =>
      type ← o !! "type" ≫= as_string;
      url ← o !! "url" ≫= as_string;
      if bool_decide (type ∈ postSchema.media_kinds) && negb (String.eqb url "")
      then Some {| media_type := Some type; media_url := Some url |}
      else None
  | _ => None
  end.

Definition as_media (v : json) : option (list MediaEntry) :=
  match v with
  | JArr l => mapM as_media_entry l
  | _ => None
  end.

(** A member is typed when it is absent or reads as a value of the type. *)
Definition typed {A} (read : json → option A) (raw : value) : Prop :=
  match raw with
  | None => True
  | Some v => is_Some (read v)
  end.

(** How the value of a field after an update relates to the request: a field
    the body does not supply keeps the stored value, and a supplied value of
    the type of the field is the value stored. *)
Definition taken {A B} (read : json → option A) (stored : A → B) (raw : value)
    (old new : option B) : Prop :=
  match raw with
  | None => new = old
  | Some v => ∀ a, read v = Some a → new = Some (stored a)
  end.

(** The fields of a post as the update of [app.js] and [api/index.js] leaves
    them. *)
Definition merged (b : gmap string json) (d d' : PostDoc) : Prop :=
  taken as_string id (b !! "title") (post_title d) (post_title d')
  ∧ taken as_string id (b !! "content") (post_content d) (post_content d')
  ∧ taken as_tags (fmap Some) (b !! "tags") (post_tags d) (post_tags d')
  ∧ taken as_string id (b !! "coverImage") (post_coverImage d) (post_coverImage d')
  ∧ taken as_media (fmap Embedded) (b !! "media") (post_media d) (post_media d')
  ∧ post_id d' = post_id d
  ∧ post_createdAt d' = post_createdAt d.

Definition typed_post_fields (b : gmap string json) : Prop :=
  typed as_string (b !! "title") ∧ typed as_string (b !! "content")
  ∧ typed as_tags (b !! "tags") ∧ typed as_string (b !! "coverImage")
  ∧ typed as_media (b !! "media").

(** The fields of a post as the update of the earlier [app.js] leaves them:
    the cover image and the media are never touched. *)
Definition earlier_merged (b : gmap string json) (d d' : PostDoc) : Prop :=
  taken as_string id (b !! "title") (post_title d) (post_title d')
  ∧ taken as_string id (b !! "content") (post_content d) (post_content d')
  ∧ taken as_tags (fmap Some) (b !! "tags") (post_tags d) (post_tags d')
  ∧ post_coverImage d' = post_coverImage d
  ∧ post_media d' = post_media d
  ∧ post_id d' = post_id d
  ∧ post_createdAt d' = post_createdAt d.

Definition typed_earlier_fields (b : gmap string json) : Prop :=
  typed as_string (b !! "title") ∧ typed as_string (b !! "content")
  ∧ typed as_tags (b !! "tags").

(** The fields of [req.body] that the PUT /posts/:id handler passes on. *)
Definition post_fields (b : gmap string json) : literal :=
  {[ "title" := b !! "title"; "content" := b !! "content"; "tags" := b !! "tags";
     "coverImage" := b !! "coverImage"; "media" := b !! "media" ]}.

(** The fields of [req.body] that the PUT /posts/:id handler of the earlier
    [app.js] passes on. *)
Definition earlier_fields (b : gmap string json) : literal :=
  {[ "title" := b !! "title"; "content" := b !! "content"; "tags" := b !! "tags" ]}.

(** Two bodies agree on a list of keys when they hold the same member, or
    none, under each of them. *)
Definition agree (keys : list string) (b b' : gmap string json) : Prop :=
  Forall (λ k, b !! k = b' !! k) keys.

Definition with_body (b' : gmap string json) (req : request) : request :=
  {| headers := headers req; params_id := params_id req; body := b' |}.

(** ** Sample data *)

Definition sample_env : env :=
  {| new_ObjectId := "65f1c0de0000000000000002"; Date_now := 2000 |}.

Definition sample_todo : TodoDoc :=
  {| todo_id := "65f1c0de0000000000000001"; todo_title := Some "buy milk";
     todo_done := Some false; todo_createdAt := 1000; todo_updatedAt := 1000 |}.

Definition sample_post : PostDoc :=
  {| post_id := "65f1c0de00000000000000a1"; post_title := Some "Hello";
     post_content := Some "first post"; post_tags := Some [Some "intro"];
     post_coverImage := Some "https://img.example/cover.png";
     post_media := Some [Embedded {| media_type := Some "image";
                                     media_url := Some "https://img.example/1.png" |}];
     post_createdAt := 1000; post_updatedAt := 1000 |}.

(** The number 0, which JavaScript prints as "0". *)
Definition sample_zero : number := {| number_value := 0; number_text := "0" |}.

Definition empty_store : store := {| Todos := []; Posts := [] |}.
Definition sample_store : store := {| Todos := [sample_todo]; Posts := [sample_post] |}.

Definition request_of (id : string) (b : gmap string json) : request :=
  {| headers := ∅; params_id := id; body := b |}.

(** ** Stores and handlers *)

(** No two documents of a collection have the same id. *)
Definition unique_ids (st : store) : Prop :=
  NoDup (todo_id <$> Todos st) ∧ NoDup (post_id <$> Posts st).

(** The id generated for a new document is in use in neither collection. *)
Definition fresh_id (e : env) (st : store) : Prop :=
  (new_ObjectId e ∉ todo_id <$> Todos st) ∧ (new_ObjectId e ∉ post_id <$> Posts st).

(** Every embedded media entry of every stored post is valid. *)
Definition all_embedded_media_ok (st : store) : Prop :=
  Forall embedded_media_ok (Posts st).

(** The routes of [app.js] on todos and on posts, and those of
    [api/index.js]. *)
Definition App_todo_handlers : list handler :=
  [App.post_todos; App.get_todos; App.get_todos_id; App.put_todos_id;
   App.delete_todos_id].

Definition App_post_handlers : list handler :=
  [App.get_posts; App.post_posts; App.get_posts_id; App.put_posts_id;
   App.delete_posts_id].

Definition Api_todo_handlers : list handler :=
  [Api.post_todos; Api.get_todos; Api.put_todos_id; Api.delete_todos_id].

Definition Api_post_handlers (secret : option string) : list handler :=
  [Api.get_posts; Api.post_posts secret; Api.get_posts_id;
   Api.put_posts_id secret; Api.delete_posts_id secret].

Definition keyed_request (key : string) (id : string) (b : gmap string json) : request :=
  {| headers := {[ "x-admin-key" := key ]}; params_id := id; body := b |}.

(** What serving one request can do to the store, as far as the todos go: leave
    it alone, append a todo under the generated id, replace a stored todo by
    one of the same id, or remove the todos' first record of an id. *)
Inductive todo_step (e : env) (st st' : store) : Prop :=
| todo_same : st' = st → todo_step e st st'
| todo_added d :
    todo_id d = new_ObjectId e →
    st' = {| Todos := Todos st ++ [d]; Posts := Posts st |} →
    todo_step e st st'
| todo_replaced oid d d' :
    find_doc Todo oid (Todos st) = Some d → todo_id d' = oid →
    st' = {| Todos := replace_doc Todo oid d' (Todos st); Posts := Posts st |} →
    todo_step e st st'
| todo_removed oid :
    st' = {| Todos := remove_doc Todo oid (Todos st); Posts := Posts st |} →
    todo_step e st st'.

(** The same for the posts. *)
Inductive post_step (e : env) (st st' : store) : Prop :=
| post_same : st' = st → post_step e st st'
| post_added d :
    post_id d = new_ObjectId e →
    st' = {| Todos := Todos st; Posts := Posts st ++ [d] |} →
    post_step e st st'
| post_replaced oid d d' :
    find_doc Post oid (Posts st) = Some d → post_id d' = oid →
    st' = {| Todos := Todos st; Posts := replace_doc Post oid d' (Posts st) |} →
    post_step e st st'
| post_removed oid :
    st' = {| Todos := Todos st; Posts := remove_doc Post oid (Posts st) |} →
    post_step e st st'.

(** * Properties *)

(** ** What the store operations compute *)

Section OperationFacts.
Context {D : Type} (model : Model D).

Lemma find_doc_id oid (l : list D) d :
  find_doc model oid l = Some d → _id d = oid.
Proof.
  induction l as [|x l IH]; simpl; [done|].
  case_bool_decide; [|done]. by intros [= <-].
Qed.

Lemma find_doc_replace oid (l : list D) d d' :
  find_doc model oid l = Some d → _id d' = oid →
  find_doc model oid (replace_doc model oid d' l) = Some d'.
Proof.
  intros Hfind Hid. induction l as [|x l IH]; simpl in *; [done|].
  case_bool_decide as Hx; simpl.
  - by rewrite bool_decide_eq_true_2.
  - rewrite bool_decide_eq_false_2 by done. by apply IH.
Qed.

(** A query by id throws on an id that does not cast, and otherwise looks
    the document up; the database is the same afterwards. *)
Lemma findById_run id e st :
  findById model id e st =
    match castObjectId id with
    | None => (Throw (CastError "_id"), st)
    | Some oid => (Ok (find_doc model oid (collection st)), st)
    end.
Proof. unfold findById, castId. by destruct (castObjectId id). Qed.

Lemma find_sort_run e st :
  find_sort_createdAt_desc model e st =
    (Ok (merge_sort (createdAt_desc model) (collection st)), st).
Proof. done. Qed.

Lemma findByIdAndUpdate_run id fields e st :
  findByIdAndUpdate model id fields e st =
    match castObjectId id with
    | None => (Throw (CastError "_id"), st)
    | Some oid =>
        match castUpdate fields with
        | Throw x => (Throw x, st)
        | Ok u =>
            match find_doc model oid (collection st) with
            | None => (Ok None, st)
            | Some d =>
                let d' := applyUpdate u (Date_now e) d in
                (Ok (Some d'),
                 with_collection (replace_doc model oid d' (collection st)) st)
            end
        end
    end.
Proof.
  unfold findByIdAndUpdate, castId.
  destruct (castObjectId id) as [oid|]; [|done].
  unfold mbind, M_bind, mret, M_ret, liftR, clock, read, write; simpl.
  destruct (castUpdate fields) as [u|x]; [|done].
  by destruct (find_doc model oid (collection st)).
Qed.

Lemma findByIdAndDelete_run id e st :
  findByIdAndDelete model id e st =
    match castObjectId id with
    | None => (Throw (CastError "_id"), st)
    | Some oid =>
        match find_doc model oid (collection st) with
        | None => (Ok None, st)
        | Some d =>
            (Ok (Some d), with_collection (remove_doc model oid (collection st)) st)
        end
    end.
Proof.
  unfold findByIdAndDelete, castId.
  destruct (castObjectId id) as [oid|]; [|done].
  unfold mbind, M_bind, mret, M_ret, read, write; simpl.
  by destruct (find_doc model oid (collection st)).
Qed.

Lemma save_run (doc : env → result D) e st :
  save model doc e st =
    match doc e with
    | Ok d => (Ok d, with_collection (collection st ++ [d]) st)
    | Throw x => (Throw x, st)
    end.
Proof.
  unfold save, mbind, M_bind, mret, M_ret, surroundings, liftR, read, write.
  by destruct (doc e).
Qed.

End OperationFacts.

(** The sort orders every document of the collection, the later created
    first. *)
Lemma find_sort_sorted {D} (model : Model D) (l : list D) :
  StronglySorted (createdAt_desc model) (merge_sort (createdAt_desc model) l)
  ∧ merge_sort (createdAt_desc model) l ≡ₚ l.
Proof.
  split; [|apply merge_sort_Permutation].
  apply StronglySorted_merge_sort.
  - intros a b c. unfold createdAt_desc. lia.
  - intros a b. unfold createdAt_desc. lia.
Qed.

(** Running a handler: open the [try] block and replace every store operation
    by what it computes. *)
Ltac run_handler :=
  unfold try_catch, create, new; unfold mbind, M_bind, mret, M_ret;
  rewrite ?findById_run, ?findByIdAndUpdate_run, ?findByIdAndDelete_run,
    ?save_run, ?find_sort_run;
  cbn [build castUpdate applyUpdate collection with_collection Post Todo].

(** ** Validation of todo creation *)

(** C5: a POST /todos whose body has no title, or an empty one, is answered
    with 400 and the validation message, and the store is left as it was: no
    record is persisted. *)
Theorem C5_post_todos_title_required req e st :
  body req !! "title" = None ∨ body req !! "title" = Some (JStr "") →
  App.post_todos req e st = (status_json 400 title_required, st)
  ∧ Api.post_todos req e st = (status_json 400 title_required, st).
Proof.
  intros Htitle. unfold App.post_todos, Api.post_todos, try_catch.
  by destruct Htitle as [-> | ->].
Qed.

Lemma C5_post_todos_title_required_witness :
  let req := request_of "" {[ "title" := JStr ""; "done" := JBool true ]} in
  body req !! "title" = Some (JStr "")
  ∧ App.post_todos req sample_env sample_store
      = (status_json 400 title_required, sample_store)
  ∧ Api.post_todos req sample_env sample_store
      = (status_json 400 title_required, sample_store).
Proof.
  split; [reflexivity|].
  apply (C5_post_todos_title_required
           (request_of "" {[ "title" := JStr ""; "done" := JBool true ]})).
  right. reflexivity.
Defined.

(** ** Reads *)

(** C9: the read endpoints GET /todos, GET /todos/:id, GET /posts and
    GET /posts/:id leave the store unchanged, whatever the request and
    whatever the answer (a record, a list, 404 or 500): the Todo and the Post
    collections after the request are the ones before it. *)
Theorem C9_reads_leave_store_unchanged req e st :
  (App.get_todos req e st).2 = st
  ∧ (App.get_todos_id req e st).2 = st
  ∧ (App.get_posts req e st).2 = st
  ∧ (App.get_posts_id req e st).2 = st
  ∧ (Api.get_todos req e st).2 = st
  ∧ (Api.get_posts req e st).2 = st
  ∧ (Api.get_posts_id req e st).2 = st.
Proof.
  unfold App.get_todos, App.get_todos_id, App.get_posts, App.get_posts_id,
    Api.get_todos, Api.get_posts, Api.get_posts_id.
  run_handler.
  destruct (castObjectId (params_id req)) as [oid|]; simpl.
  - destruct (find_doc Todo oid (Todos st)), (find_doc Post oid (Posts st)); done.
  - done.
Qed.

(** ** Malformed ids *)

(** C2, as the code has it: an id that does not match the store's id format
    makes the query throw, and the handler's [catch] answers 500 with the
    generic message; no process crash, and the store is left as it was.  This
    holds for get, update and delete by id, on todos and on posts. *)
Theorem C2_malformed_id_answers_500 req e st :
  castObjectId (params_id req) = None →
  App.get_todos_id req e st = (status_json 500 server_error, st)
  ∧ App.put_todos_id req e st = (status_json 500 server_error, st)
  ∧ App.delete_todos_id req e st = (status_json 500 server_error, st)
  ∧ App.get_posts_id req e st = (status_json 500 server_error, st)
  ∧ App.put_posts_id req e st = (status_json 500 server_error, st)
  ∧ App.delete_posts_id req e st = (status_json 500 server_error, st)
  ∧ Api.put_todos_id req e st = (status_json 500 server_error, st)
  ∧ Api.delete_todos_id req e st = (status_json 500 server_error, st)
  ∧ Api.get_posts_id req e st = (status_json 500 server_error, st)
  ∧ ∀ secret, Api.key_differs secret (headers req !! "x-admin-key") = false →
      Api.put_posts_id secret req e st = (status_json 500 server_error, st)
      ∧ Api.delete_posts_id secret req e st = (status_json 500 server_error, st).
Proof.
  intros Hid.
  unfold App.get_todos_id, App.put_todos_id, App.delete_todos_id,
    App.get_posts_id, App.put_posts_id, App.delete_posts_id,
    Api.put_todos_id, Api.delete_todos_id, Api.get_posts_id,
    Api.put_posts_id, Api.delete_posts_id.
  repeat (match goal with |- _ ∧ _ => split end);
    try (run_handler; by rewrite Hid).
  intros secret Hkey. rewrite Hkey. split; run_handler; by rewrite Hid.
Qed.

Lemma C2_malformed_id_answers_500_witness :
  castObjectId "abc" = None
  ∧ App.delete_posts_id (request_of "abc" ∅) sample_env sample_store
      = (status_json 500 server_error, sample_store).
Proof.
  split; [reflexivity|].
  apply (C2_malformed_id_answers_500 (request_of "abc" ∅) sample_env sample_store).
  reflexivity.
Defined.

(** C2, as stated, fails: GET /todos/abc is answered with 500, not 404. *)
Lemma C2_malformed_id_not_404 :
  castObjectId "abc" = None
  ∧ status (App.get_todos_id (request_of "abc" ∅) sample_env sample_store).1 = 500%nat
  ∧ status (App.get_todos_id (request_of "abc" ∅) sample_env sample_store).1 ≠ 404%nat.
Proof. split; [reflexivity|]. split; [reflexivity|]. vm_compute. discriminate. Qed.

(** ** Authorization of post creation *)

(** In [api/index.js] a POST /posts whose [x-admin-key] header is absent or
    differs from [ADMIN_KEY] is answered with 401 before the body is looked
    at, and nothing is persisted. *)
Lemma Api_post_posts_unauthorized secret req e st :
  headers req !! "x-admin-key" ≠ Some (Api.ADMIN_KEY secret) →
  Api.post_posts secret req e st = (status_json 401 unauthorized, st).
Proof.
  intros Hkey. unfold Api.post_posts, try_catch, Api.key_differs.
  by rewrite bool_decide_eq_false_2.
Qed.

(** In [app.js] the headers of a POST /posts are never read. *)
Lemma App_post_posts_headers_unread req hdrs e st :
  App.post_posts req e st
  = App.post_posts {| headers := hdrs; params_id := params_id req; body := body req |} e st.
Proof. done. Qed.

(** C1 does not hold of the POST /posts handler of [app.js]: it has no
    [x-admin-key] check, so a request without the header and with the body
    [{"title": "Hello"}] is answered with 201 and the new post is persisted,
    where the claim asks for 401 and no record. *)
Theorem C1_app_post_posts_without_key_creates :
  let req := request_of "" {[ "title" := JStr "Hello" ]} in
  let doc :=
    {| post_id := new_ObjectId sample_env; post_title := Some "Hello";
       post_content := Some ""; post_tags := Some [];
       post_coverImage := Some ""; post_media := Some [];
       post_createdAt := Date_now sample_env;
       post_updatedAt := Date_now sample_env |} in
  headers req !! "x-admin-key" = None
  ∧ App.post_posts req sample_env empty_store
      = (status_json 201 (PostJson doc), {| Todos := []; Posts := [doc] |})
  ∧ Api.post_posts None req sample_env empty_store
      = (status_json 401 unauthorized, empty_store).
Proof. repeat split; reflexivity. Qed.

(** ** Validation of media entries *)

Lemma required_string_ok path v :
  required_string path v = Ok () → ∃ s, v = Some s ∧ s ≠ "".
Proof.
  destruct v as [s|]; simpl; [|done].
  destruct (String.eqb_spec s ""); [done|]. eauto.
Qed.

Lemma validateMediaEntry_ok m :
  postSchema.validateMediaEntry m = Ok () → media_entry_ok m.
Proof.
  unfold postSchema.validateMediaEntry, media_entry_ok.
  destruct (required_string "media.type" (media_type m)) as [[]|] eqn:Htype; [|done].
  apply required_string_ok in Htype as (type & -> & _). simpl.
  case_bool_decide as Hkind; [|done]. simpl.
  intros (url & -> & Hurl)%required_string_ok. by exists type, url.
Qed.

Lemma mapR_Forall {A B} (f : A → result B) l l' :
  mapR f l = Ok l' → Forall (λ x, ∃ y, f x = Ok y) l.
Proof.
  revert l'. induction l as [|x l IH]; intros l'; simpl; [constructor|].
  destruct (f x) as [y|] eqn:Hx; [|done]. simpl.
  destruct (mapR f l) as [ys|] eqn:Hl; [|done]. simpl. intros _.
  constructor; eauto.
Qed.

Lemma validateMedia_ok media :
  postSchema.validateMedia media = Ok () →
  match media with
  | Some l => Forall (λ item, ∀ m, item = Embedded m → media_entry_ok m) l
  | None => True
  end.
Proof.
  destruct media as [l|]; simpl; [|done].
  destruct (mapR postSchema.validateMediaItem l) as [us|] eqn:Hl; [|done].
  intros _. apply mapR_Forall in Hl.
  eapply Forall_impl; [exact Hl|]. intros item [[] Hitem] m ->.
  by apply validateMediaEntry_ok.
Qed.

(** In a document that passes the schema's validation every embedded media
    entry is valid. *)
Lemma postSchema_build_media_ok fields e doc :
  postSchema.build fields e = Ok doc → embedded_media_ok doc.
Proof.
  unfold postSchema.build, embedded_media_ok.
  repeat (match goal with
          | |- context [set_path ?c ?d ?r] =>
              destruct (set_path c d r) as [?|] eqn:?; simpl; [|done]
          end).
  destruct (required_string _ _) as [[]|]; simpl; [|done].
  destruct (postSchema.validateMedia _) as [[]|] eqn:Hmedia; simpl; [|done].
  intros [= <-]. simpl. by apply validateMedia_ok in Hmedia.
Qed.

(** The create path validates: in a post that POST /posts answers with 201
    every embedded media entry is valid, and a rejected create persists
    nothing. *)
Lemma App_post_posts_media_ok req e st :
  (∃ doc, App.post_posts req e st
          = (status_json 201 (PostJson doc),
             {| Todos := Todos st; Posts := Posts st ++ [doc] |})
          ∧ embedded_media_ok doc)
  ∨ (App.post_posts req e st).2 = st.
Proof.
  unfold App.post_posts, try_catch.
  destruct (truthy (body req !! "title")); simpl; [|by right].
  run_handler.
  destruct (postSchema.build _ e) as [doc|] eqn:Hdoc; simpl; [|by right].
  left. exists doc. split; [done|]. by eapply postSchema_build_media_ok.
Qed.

(** C6 does not hold of updates: PUT /posts/:id passes [media] to
    [findByIdAndUpdate] without [runValidators], so the [enum] of the schema
    is not checked.  Here an existing post is updated with one media entry of
    type 'pdf': the answer is 200 and the stored record now has that entry,
    which the schema's own validation refuses; the same body is refused when a
    post is created. *)
Theorem C6_put_posts_persists_invalid_media :
  let pdf := JObj {[ "type" := JStr "pdf"; "url" := JStr "https://files.example/a.pdf" ]} in
  let req := request_of "65f1c0de00000000000000a1" {[ "media" := JArr [pdf] ]} in
  let doc :=
    {| post_id := post_id sample_post; post_title := post_title sample_post;
       post_content := post_content sample_post; post_tags := post_tags sample_post;
       post_coverImage := post_coverImage sample_post;
       post_media := Some [Embedded {| media_type := Some "pdf";
                                       media_url := Some "https://files.example/a.pdf" |}];
       post_createdAt := post_createdAt sample_post;
       post_updatedAt := Date_now sample_env |} in
  App.put_posts_id req sample_env sample_store
    = (res_json (PostJson doc), {| Todos := [sample_todo]; Posts := [doc] |})
  ∧ postSchema.validateMedia (post_media doc) = Throw (ValidationError "media.type")
  ∧ ¬ media_ok doc
  ∧ App.post_posts (request_of "" {[ "title" := JStr "Hello"; "media" := JArr [pdf] ]})
        sample_env sample_store
      = (status_json 500 server_error, sample_store).
Proof.
  repeat split; try reflexivity.
  unfold media_ok; simpl. intros Hall. apply Forall_cons_1 in Hall as [Hpdf _].
  destruct Hpdf as (m & [= <-] & type & url & [= <-] & Hkind & _).
  apply (bool_decide_pack _) in Hkind. vm_compute in Hkind. exact Hkind.
Qed.

(** ** Updates of todos *)

Lemma unresolved_find {D} (model : Model D) id oid st :
  ¬ resolves model id st → castObjectId id = Some oid →
  find_doc model oid (collection st) = None.
Proof.
  intros Hno Hid. destruct (find_doc model oid (collection st)) as [d|] eqn:Hd; [|done].
  destruct Hno. by exists oid, d.
Qed.

(** C7, as the code has it: a PUT /todos/:id whose id does not resolve to a
    stored todo leaves the store as it was, so no record is created by the
    failed update; the answer is 404 when the id is well formed and the
    supplied fields cast to the schema's types, and 500 otherwise. *)
Theorem C7_put_todos_unresolved_id req e st :
  ¬ resolves Todo (params_id req) st →
  App.put_todos_id req e st =
    (match castObjectId (params_id req),
           todoSchema.castUpdate
             {[ "title" := body req !! "title"; "done" := body req !! "done" ]} with
     | Some _, Ok _ => status_json 404 todo_missing
     | _, _ => status_json 500 server_error
     end, st)
  ∧ Api.put_todos_id req e st =
    (match castObjectId (params_id req),
           todoSchema.castUpdate {[ "done" := body req !! "done" ]} with
     | Some _, Ok _ => status_json 404 todo_missing
     | _, _ => status_json 500 server_error
     end, st).
Proof.
  intros Hno. unfold App.put_todos_id, Api.put_todos_id. run_handler.
  destruct (castObjectId (params_id req)) as [oid|] eqn:Hid; [|done].
  pose proof (unresolved_find Todo _ _ _ Hno Hid) as Hnone. simpl in Hnone.
  rewrite Hnone.
  split; by destruct (todoSchema.castUpdate _).
Qed.

Lemma C7_put_todos_unresolved_id_witness :
  let req := request_of "65f1c0de00000000000000ff" {[ "done" := JBool true ]} in
  ¬ resolves Todo (params_id req) sample_store
  ∧ App.put_todos_id req sample_env sample_store
      = (status_json 404 todo_missing, sample_store)
  ∧ Api.put_todos_id req sample_env sample_store
      = (status_json 404 todo_missing, sample_store).
Proof.
  assert (Hno : ¬ resolves Todo "65f1c0de00000000000000ff" sample_store).
  { intros (oid & d & Hid & Hd). vm_compute in Hid.
    injection Hid as <-. vm_compute in Hd. discriminate. }
  split; [exact Hno|].
  exact (C7_put_todos_unresolved_id
           (request_of "65f1c0de00000000000000ff" {[ "done" := JBool true ]})
           sample_env sample_store Hno).
Defined.

(** C7, as stated, fails: the id "no-such-id" resolves to no todo, and the
    update is answered with 500, not 404. *)
Lemma C7_unresolved_id_not_404 :
  let req := request_of "no-such-id" {[ "done" := JBool true ]} in
  ¬ resolves Todo (params_id req) sample_store
  ∧ status (App.put_todos_id req sample_env sample_store).1 = 500%nat
  ∧ status (App.put_todos_id req sample_env sample_store).1 ≠ 404%nat.
Proof.
  split; [|split; [reflexivity | vm_compute; discriminate]].
  intros (oid & d & Hid & _). vm_compute in Hid. discriminate.
Qed.

(** What an update of a stored todo keeps. *)
Lemma todoSchema_applyUpdate_keeps u now d :
  todo_id (todoSchema.applyUpdate u now d) = todo_id d
  ∧ todo_createdAt (todoSchema.applyUpdate u now d) = todo_createdAt d
  ∧ (todoSchema.set_title u = None →
       todo_title (todoSchema.applyUpdate u now d) = todo_title d)
  ∧ (todoSchema.set_done u = None →
       todo_done (todoSchema.applyUpdate u now d) = todo_done d).
Proof. repeat split; simpl; by intros ->. Qed.

(** C4: for a stored todo, a PUT /todos/:id whose body supplies [done] as a
    boolean and no [title] is answered with 200 and the updated record, whose
    [done] is the supplied value and whose [title] (with the id and creation
    time) is the stored one; that record is what the store holds afterwards.
    More generally, whatever the body and the answer, a field that the body
    does not supply keeps its stored value. *)
Theorem C4_put_todos_done_only req e st oid d :
  castObjectId (params_id req) = Some oid →
  find_doc Todo oid (Todos st) = Some d →
  (∀ b, body req !! "title" = None → body req !! "done" = Some (JBool b) →
     let d' := {| todo_id := todo_id d; todo_title := todo_title d;
                  todo_done := Some b; todo_createdAt := todo_createdAt d;
                  todo_updatedAt := Date_now e |} in
     let st' := {| Todos := replace_doc Todo oid d' (Todos st); Posts := Posts st |} in
     App.put_todos_id req e st = (res_json (TodoJson d'), st')
     ∧ Api.put_todos_id req e st = (res_json (TodoJson d'), st')
     ∧ find_doc Todo oid (Todos st') = Some d')
  ∧ (∀ put, put = App.put_todos_id ∨ put = Api.put_todos_id →
     ∃ d', find_doc Todo oid (Todos (put req e st).2) = Some d'
       ∧ todo_id d' = todo_id d
       ∧ todo_createdAt d' = todo_createdAt d
       ∧ (body req !! "title" = None → todo_title d' = todo_title d)
       ∧ (body req !! "done" = None → todo_done d' = todo_done d)).
Proof.
  intros Hid Hd. pose proof (find_doc_id Todo _ _ _ Hd) as Hoid. split.
  - intros b Htitle Hdone d' st'.
    unfold App.put_todos_id, Api.put_todos_id. run_handler.
    rewrite Hid, Htitle, Hdone. simpl. rewrite Hd.
    repeat split. apply (find_doc_replace Todo _ _ d); done.
  - intros put [-> | ->]; unfold App.put_todos_id, Api.put_todos_id; run_handler;
      rewrite Hid.
    + destruct (todoSchema.castUpdate _) as [u|] eqn:Hu; simpl.
      2:{ exists d. by rewrite Hd. }
      rewrite Hd. simpl. eexists. split.
      { apply (find_doc_replace Todo _ _ d); [done|]. simpl. done. }
      destruct (todoSchema_applyUpdate_keeps u (Date_now e) d) as (? & ? & Ht & Hdn).
      repeat split; try done.
      * intros Hnone. apply Ht. revert Hu. unfold todoSchema.castUpdate.
        change (member _ "title") with (body req !! "title").
        change (member _ "done") with (body req !! "done").
        rewrite Hnone. simpl.
        destruct (update_path _ (body req !! "done")); simpl; [|done].
        by intros [= <-].
      * intros Hnone. apply Hdn. revert Hu. unfold todoSchema.castUpdate.
        change (member _ "title") with (body req !! "title").
        change (member _ "done") with (body req !! "done").
        rewrite Hnone. simpl.
        destruct (update_path _ (body req !! "title")); simpl; [|done].
        by intros [= <-].
    + destruct (todoSchema.castUpdate _) as [u|] eqn:Hu; simpl.
      2:{ exists d. by rewrite Hd. }
      rewrite Hd. simpl. eexists. split.
      { apply (find_doc_replace Todo _ _ d); [done|]. simpl. done. }
      destruct (todoSchema_applyUpdate_keeps u (Date_now e) d) as (? & ? & Ht & Hdn).
      repeat split; try done.
      * intros _. apply Ht. revert Hu. unfold todoSchema.castUpdate.
        change (member _ "title") with (@None json).
        change (member _ "done") with (body req !! "done"). simpl.
        destruct (update_path _ (body req !! "done")); simpl; [|done].
        by intros [= <-].
      * intros Hnone. apply Hdn. revert Hu. unfold todoSchema.castUpdate.
        change (member _ "title") with (@None json).
        change (member _ "done") with (body req !! "done").
        rewrite Hnone. simpl. by intros [= <-].
Qed.

Lemma C4_put_todos_done_only_witness :
  let id := "65f1c0de0000000000000001" in
  let req := request_of id {[ "done" := JBool true ]} in
  let d' := {| todo_id := id; todo_title := Some "buy milk"; todo_done := Some true;
               todo_createdAt := 1000; todo_updatedAt := 2000 |} in
  castObjectId (params_id req) = Some id
  ∧ find_doc Todo id (Todos sample_store) = Some sample_todo
  ∧ App.put_todos_id req sample_env sample_store
      = (res_json (TodoJson d'), {| Todos := [d']; Posts := [sample_post] |}).
Proof.
  split; [reflexivity|]. split; [reflexivity|].
  destruct (C4_put_todos_done_only
              (request_of "65f1c0de0000000000000001" {[ "done" := JBool true ]})
              sample_env sample_store "65f1c0de0000000000000001" sample_todo
              eq_refl eq_refl) as [Hdone _].
  apply (Hdone true); reflexivity.
Defined.

(** ** Updates of posts *)

Lemma postSchema_castUpdate_paths fields u :
  postSchema.castUpdate fields = Ok u →
  update_path (castString "title") (member fields "title") = Ok (postSchema.set_title u)
  ∧ update_path (castString "content") (member fields "content")
      = Ok (postSchema.set_content u)
  ∧ update_path (castArray (castString "tags")) (member fields "tags")
      = Ok (postSchema.set_tags u)
  ∧ update_path (castString "coverImage") (member fields "coverImage")
      = Ok (postSchema.set_coverImage u)
  ∧ update_path (castArray postSchema.castMediaEntry) (member fields "media")
      = Ok (postSchema.set_media u).
Proof.
  unfold postSchema.castUpdate.
  repeat (match goal with
          | |- context [update_path ?c ?r] =>
              destruct (update_path c r) as [?|] eqn:?; simpl; [|done]
          end).
  by intros [= <-].
Qed.

(** A value of the type of a field casts to itself. *)
Lemma castString_as_string path v s :
  as_string v = Some s → castString path v = Ok (Some s).
Proof. destruct v; simpl; try done. by intros [= ->]. Qed.

Lemma mapR_as_string path l l' :
  mapM as_string l = Some l' → mapR (castString path) l = Ok (Some <$> l').
Proof.
  revert l'. induction l as [|v l IH]; intros l'; csimpl.
  - by intros [= <-].
  - destruct (as_string v) as [s|] eqn:Hv; csimpl; [|done].
    destruct (mapM as_string l) as [k|]; csimpl; [|done].
    intros [= <-]. by rewrite (castString_as_string _ _ _ Hv), (IH k eq_refl).
Qed.

Lemma castArray_as_tags path v l :
  as_tags v = Some l → castArray (castString path) v = Ok (Some (Some <$> l)).
Proof.
  destruct v as [| | | |l0|]; simpl; try done.
  intros Hl. by rewrite (mapR_as_string _ _ _ Hl).
Qed.

Lemma castMediaEntry_as_media_entry v m :
  as_media_entry v = Some m → postSchema.castMediaEntry v = Ok (Embedded m).
Proof.
  destruct v as [| | | | |o]; simpl; try done.
  unfold postSchema.castMediaEntry. simpl.
  destruct (o !! "type") as [vt|]; csimpl; [|done].
  destruct (as_string vt) as [type|] eqn:Htype; csimpl; [|done].
  destruct (o !! "url") as [vu|]; csimpl; [|done].
  destruct (as_string vu) as [url|] eqn:Hurl; csimpl; [|done].
  destruct (_ && _); [|done]. intros [= <-].
  by rewrite (castString_as_string _ _ _ Htype), (castString_as_string _ _ _ Hurl).
Qed.

Lemma mapR_as_media l l' :
  mapM as_media_entry l = Some l' →
  mapR postSchema.castMediaEntry l = Ok (Embedded <$> l').
Proof.
  revert l'. induction l as [|v l IH]; intros l'; csimpl.
  - by intros [= <-].
  - destruct (as_media_entry v) as [m|] eqn:Hv; csimpl; [|done].
    destruct (mapM as_media_entry l) as [k|]; csimpl; [|done].
    intros [= <-].
    by rewrite (castMediaEntry_as_media_entry _ _ Hv), (IH k eq_refl).
Qed.

Lemma castArray_as_media v l :
  as_media v = Some l →
  castArray postSchema.castMediaEntry v = Ok (Some (Embedded <$> l)).
Proof.
  destruct v as [| | | |l0|]; simpl; try done.
  intros Hl. by rewrite (mapR_as_media _ _ Hl).
Qed.

(** A path of an update, when the cast keeps the values of the type. *)
Lemma update_path_taken {A B} (read : json → option A) (stored : A → B)
    (cast : json → result (option B)) raw o old :
  (∀ v a, read v = Some a → cast v = Ok (Some (stored a))) →
  update_path cast raw = Ok o → taken read stored raw old (merge_path o old).
Proof.
  intros Hread. destruct raw as [v|]; simpl.
  - destruct (cast v) as [x|] eqn:Hv; simpl; [|done].
    intros [= <-] a Ha. rewrite (Hread _ _ Ha) in Hv. by injection Hv as <-.
  - by intros [= <-].
Qed.

Lemma update_path_typed {A B} (read : json → option A) (stored : A → B)
    (cast : json → result (option B)) raw :
  (∀ v a, read v = Some a → cast v = Ok (Some (stored a))) →
  typed read raw → ∃ o, update_path cast raw = Ok o.
Proof.
  intros Hread. destruct raw as [v|]; simpl; [|by eauto].
  intros [a Ha]. rewrite (Hread _ _ Ha). simpl. by eauto.
Qed.

Lemma postSchema_update_merged b u now d :
  postSchema.castUpdate (post_fields b) = Ok u →
  merged b d (postSchema.applyUpdate u now d).
Proof.
  intros (Ht & Hc & Hg & Hi & Hm)%postSchema_castUpdate_paths.
  unfold merged; simpl. repeat split.
  - apply (update_path_taken _ _ _ _ _ _ (castString_as_string "title") Ht).
  - apply (update_path_taken _ _ _ _ _ _ (castString_as_string "content") Hc).
  - apply (update_path_taken _ _ _ _ _ _ (castArray_as_tags "tags") Hg).
  - apply (update_path_taken _ _ _ _ _ _ (castString_as_string "coverImage") Hi).
  - apply (update_path_taken _ _ _ _ _ _ castArray_as_media Hm).
Qed.

Lemma postSchema_update_earlier_merged b u now d :
  postSchema.castUpdate (earlier_fields b) = Ok u →
  earlier_merged b d (postSchema.applyUpdate u now d).
Proof.
  intros (Ht & Hc & Hg & Hi & Hm)%postSchema_castUpdate_paths.
  change (member _ "coverImage") with (@None json) in Hi.
  change (member _ "media") with (@None json) in Hm.
  simpl in Hi, Hm. injection Hi as Hi. injection Hm as Hm.
  unfold earlier_merged; simpl. rewrite <- Hi, <- Hm. repeat split.
  - apply (update_path_taken _ _ _ _ _ _ (castString_as_string "title") Ht).
  - apply (update_path_taken _ _ _ _ _ _ (castString_as_string "content") Hc).
  - apply (update_path_taken _ _ _ _ _ _ (castArray_as_tags "tags") Hg).
Qed.

Lemma typed_post_fields_cast b :
  typed_post_fields b → ∃ u, postSchema.castUpdate (post_fields b) = Ok u.
Proof.
  intros (Ht & Hc & Hg & Hi & Hm). unfold postSchema.castUpdate.
  change (member _ "title") with (b !! "title").
  change (member _ "content") with (b !! "content").
  change (member _ "tags") with (b !! "tags").
  change (member _ "coverImage") with (b !! "coverImage").
  change (member _ "media") with (b !! "media").
  destruct (update_path_typed _ _ _ _ (castString_as_string "title") Ht) as [? ->].
  destruct (update_path_typed _ _ _ _ (castString_as_string "content") Hc) as [? ->].
  destruct (update_path_typed _ _ _ _ (castArray_as_tags "tags") Hg) as [? ->].
  destruct (update_path_typed _ _ _ _ (castString_as_string "coverImage") Hi) as [? ->].
  destruct (update_path_typed _ _ _ _ castArray_as_media Hm) as [? ->].
  simpl. by eauto.
Qed.

Lemma typed_earlier_fields_cast b :
  typed_earlier_fields b → ∃ u, postSchema.castUpdate (earlier_fields b) = Ok u.
Proof.
  intros (Ht & Hc & Hg). unfold postSchema.castUpdate.
  change (member _ "title") with (b !! "title").
  change (member _ "content") with (b !! "content").
  change (member _ "tags") with (b !! "tags").
  change (member _ "coverImage") with (@None json).
  change (member _ "media") with (@None json).
  destruct (update_path_typed _ _ _ _ (castString_as_string "title") Ht) as [? ->].
  destruct (update_path_typed _ _ _ _ (castString_as_string "content") Hc) as [? ->].
  destruct (update_path_typed _ _ _ _ (castArray_as_tags "tags") Hg) as [? ->].
  simpl. by eauto.
Qed.

(** The [try] block of an update of a stored post, for the fields passed on. *)
Lemma put_posts_block fields id e st oid d :
  castObjectId id = Some oid →
  find_doc Post oid (Posts st) = Some d →
  try_catch
    (updated ← findByIdAndUpdate Post id fields;
     match updated with
     | None => mret (status_json 404 post_missing)
     | Some updated => mret (res_json (PostJson updated))
     end)
    (λ err, status_json 500 server_error) e st
  = match postSchema.castUpdate fields with
    | Ok u =>
        let d' := postSchema.applyUpdate u (Date_now e) d in
        (res_json (PostJson d'),
         {| Todos := Todos st; Posts := replace_doc Post oid d' (Posts st) |})
    | Throw _ => (status_json 500 server_error, st)
    end.
Proof.
  intros Hid Hd. run_handler. rewrite Hid.
  destruct (postSchema.castUpdate fields) as [u|]; [|done].
  by rewrite Hd.
Qed.




(** In the earlier [app.js] the update passes [title], [content] and [tags]
    only: the cover image and the media are kept whatever the body says. *)
Lemma EarlierApp_put_posts_keeps_cover_and_media req e st oid d :
  castObjectId (params_id req) = Some oid →
  find_doc Post oid (Posts st) = Some d →
  ∃ d', find_doc Post oid (Posts (EarlierApp.put_posts_id req e st).2) = Some d'
    ∧ post_coverImage d' = post_coverImage d
    ∧ post_media d' = post_media d.
Proof.
  intros Hid Hd. pose proof (find_doc_id Post _ _ _ Hd) as Hoid.
  unfold EarlierApp.put_posts_id. run_handler. rewrite Hid.
  destruct (postSchema.castUpdate _) as [u|] eqn:Hu; simpl.
  2:{ exists d. by rewrite Hd. }
  rewrite Hd. simpl. eexists. split.
  { by apply (find_doc_replace Post _ _ d). }
  apply postSchema_castUpdate_paths in Hu as (_ & _ & _ & Hi & Hm).
  change (member _ "coverImage") with (@None json) in Hi.
  change (member _ "media") with (@None json) in Hm.
  simpl in Hi, Hm. injection Hi as Hi. injection Hm as Hm.
  simpl. by rewrite <- Hi, <- Hm.
Qed.

(** ** Creation of todos and the listing *)

(** The head of a descending listing of [l ++ [d]] is [d] when [d] was created
    after every document of [l]. *)
Lemma newest_listed_first {D} (model : Model D) (l sorted : list D) d :
  StronglySorted (createdAt_desc model) sorted →
  sorted ≡ₚ l ++ [d] →
  Forall (λ x, createdAt x < createdAt d) l →
  head sorted = Some d.
Proof.
  intros Hsorted Hperm Hnew.
  destruct sorted as [|h t].
  { apply Permutation_nil_l in Hperm. by destruct l. }
  simpl. f_equal.
  assert (Hh : h ∈ l ++ [d]) by (rewrite <- Hperm; apply list_elem_of_here).
  apply elem_of_app in Hh as [Hh | Hh%list_elem_of_singleton]; [|done].
  assert (Hd : d ∈ h :: t) by (rewrite Hperm; set_solver).
  apply elem_of_cons in Hd as [Hd | Hd]; [done|].
  apply StronglySorted_inv in Hsorted as [_ Hall].
  rewrite Forall_forall in Hall, Hnew.
  specialize (Hall d Hd). specialize (Hnew h Hh).
  unfold createdAt_desc in Hall. lia.
Qed.

(** C8: a POST /todos with a non-empty title and no [done] is answered with
    201 and a record whose [done] is false, the schema default; a GET /todos
    after it answers with the whole collection sorted by creation time, latest
    first, and the new record heads that list when it was created after every
    record already stored. *)
Theorem C8_post_todos_default_done_listed_first req e st title :
  body req !! "title" = Some (JStr title) →
  title ≠ "" →
  body req !! "done" = None →
  let d := {| todo_id := new_ObjectId e; todo_title := Some title;
              todo_done := Some false; todo_createdAt := Date_now e;
              todo_updatedAt := Date_now e |} in
  let st' := {| Todos := Todos st ++ [d]; Posts := Posts st |} in
  App.post_todos req e st = (status_json 201 (TodoJson d), st')
  ∧ Api.post_todos req e st = (status_json 201 (TodoJson d), st')
  ∧ ∀ req' e', ∃ listed,
      App.get_todos req' e' st' = (res_json (TodosJson listed), st')
      ∧ Api.get_todos req' e' st' = (res_json (TodosJson listed), st')
      ∧ StronglySorted (createdAt_desc Todo) listed
      ∧ listed ≡ₚ Todos st'
      ∧ (Forall (λ x, todo_createdAt x < Date_now e) (Todos st) →
         head listed = Some d).
Proof.
  intros Htitle Hne Hdone d st'.
  assert (Htruthy : truthy (Some (JStr title)) = true).
  { simpl. by destruct (String.eqb_spec title ""). }
  assert (Hbuild : ∀ fields,
             member fields "title" = Some (JStr title) →
             member fields "done" = None →
             todoSchema.build fields e = Ok d).
  { intros fields Ht Hd. unfold todoSchema.build. rewrite Ht, Hd. simpl.
    by destruct (String.eqb_spec title ""). }
  split; [|split].
  - unfold App.post_todos, try_catch. rewrite Htitle, Hdone, Htruthy. simpl.
    run_handler. by rewrite Hbuild.
  - unfold Api.post_todos, try_catch. rewrite Htitle, Hdone, Htruthy. simpl.
    run_handler. by rewrite Hbuild.
  - intros req' e'. exists (merge_sort (createdAt_desc Todo) (Todos st')).
    destruct (find_sort_sorted Todo (Todos st')) as [Hsorted Hperm].
    repeat split; try done.
    intros Hnew. by apply (newest_listed_first Todo (Todos st)).
Qed.

Lemma C8_post_todos_default_done_listed_first_witness :
  let req := request_of "" {[ "title" := JStr "buy milk" ]} in
  let old := {| todo_id := "65f1c0de0000000000000001"; todo_title := Some "walk";
                todo_done := Some true; todo_createdAt := 1000;
                todo_updatedAt := 1500 |} in
  let d := {| todo_id := "65f1c0de0000000000000002"; todo_title := Some "buy milk";
              todo_done := Some false; todo_createdAt := 2000;
              todo_updatedAt := 2000 |} in
  let st := {| Todos := [old]; Posts := [] |} in
  let st' := {| Todos := [old; d]; Posts := [] |} in
  (body req !! "title" = Some (JStr "buy milk") ∧ "buy milk" ≠ ""
   ∧ body req !! "done" = None)
  ∧ App.post_todos req sample_env st = (status_json 201 (TodoJson d), st')
  ∧ App.get_todos req sample_env st' = (res_json (TodosJson [d; old]), st').
Proof.
  split; [split; [reflexivity | split; [discriminate | reflexivity]]|].
  split; [|reflexivity].
  apply (C8_post_todos_default_done_listed_first
           (request_of "" {[ "title" := JStr "buy milk" ]}) sample_env
           {| Todos := [{| todo_id := "65f1c0de0000000000000001";
                           todo_title := Some "walk"; todo_done := Some true;
                           todo_createdAt := 1000; todo_updatedAt := 1500 |}];
              Posts := [] |} "buy milk");
    [reflexivity | discriminate | reflexivity].
Defined.

(** ** What a create request reads *)

(** Adding a member under a key that is not listed keeps the agreement. *)
Lemma agree_insert keys b k v :
  k ∉ keys → agree keys b (<[k := v]> b).
Proof.
  intros Hk. unfold agree. apply Forall_forall. intros k' Hk'.
  rewrite lookup_insert_ne; [done|]. by intros ->.
Qed.

Lemma todoSchema_build_assigned fields e d :
  todoSchema.build fields e = Ok d →
  todo_id d = new_ObjectId e
  ∧ todo_createdAt d = Date_now e ∧ todo_updatedAt d = Date_now e.
Proof.
  unfold todoSchema.build.
  repeat (match goal with
          | |- context [set_path ?c ?x ?r] =>
              destruct (set_path c x r) as [?|] eqn:?; simpl; [|done]
          end).
  destruct (required_string _ _) as [[]|]; simpl; [|done].
  by intros [= <-].
Qed.

Lemma postSchema_build_assigned fields e d :
  postSchema.build fields e = Ok d →
  post_id d = new_ObjectId e
  ∧ post_createdAt d = Date_now e ∧ post_updatedAt d = Date_now e.
Proof.
  unfold postSchema.build.
  repeat (match goal with
          | |- context [set_path ?c ?x ?r] =>
              destruct (set_path c x r) as [?|] eqn:?; simpl; [|done]
          end).
  destruct (required_string _ _) as [[]|]; simpl; [|done].
  destruct (postSchema.validateMedia _) as [[]|]; simpl; [|done].
  by intros [= <-].
Qed.

(** C10: a create request reads the listed fields of its body and no other.
    Two POST /todos bodies that agree on [title] and [done], and two
    POST /posts bodies that agree on [title], [content], [tags], [coverImage]
    and [media], get the same answer and leave the same store, whatever else
    they hold; and the id and the timestamps of a created record are the id
    the driver generated and the time of the request, so an [_id], [id],
    [createdAt] or [updatedAt] of the body has no part in the record. *)
Theorem C10_create_reads_listed_fields_only req b' e st :
  (agree ["title"; "done"] (body req) b' →
     App.post_todos (with_body b' req) e st = App.post_todos req e st
     ∧ Api.post_todos (with_body b' req) e st = Api.post_todos req e st)
  ∧ (agree ["title"; "content"; "tags"; "coverImage"; "media"] (body req) b' →
     App.post_posts (with_body b' req) e st = App.post_posts req e st
     ∧ ∀ secret,
         Api.post_posts secret (with_body b' req) e st = Api.post_posts secret req e st)
  ∧ (∀ post d st',
       post = App.post_todos ∨ post = Api.post_todos →
       post req e st = (status_json 201 (TodoJson d), st') →
       todo_id d = new_ObjectId e
       ∧ todo_createdAt d = Date_now e ∧ todo_updatedAt d = Date_now e
       ∧ st' = {| Todos := Todos st ++ [d]; Posts := Posts st |})
  ∧ (∀ post d st',
       post = App.post_posts ∨ (∃ secret, post = Api.post_posts secret) →
       post req e st = (status_json 201 (PostJson d), st') →
       post_id d = new_ObjectId e
       ∧ post_createdAt d = Date_now e ∧ post_updatedAt d = Date_now e
       ∧ st' = {| Todos := Todos st; Posts := Posts st ++ [d] |}).
Proof.
  split; [|split; [|split]].
  - intros Hagree. unfold agree in Hagree.
    rewrite !Forall_cons in Hagree. destruct Hagree as (Ht & Hd & _).
    unfold App.post_todos, Api.post_todos, with_body; simpl.
    by rewrite Ht, Hd.
  - intros Hagree. unfold agree in Hagree.
    rewrite !Forall_cons in Hagree. destruct Hagree as (Ht & Hc & Hg & Hi & Hm & _).
    unfold App.post_posts, Api.post_posts, with_body; simpl.
    by rewrite Ht, Hc, Hg, Hi, Hm.
  - intros post d st' Hpost.
    assert (Hsame : post req e st = App.post_todos req e st)
      by (by destruct Hpost as [-> | ->]).
    rewrite Hsame. clear Hpost Hsame.
    unfold App.post_todos, try_catch.
    destruct (truthy (body req !! "title")); simpl; [|done].
    run_handler.
    destruct (todoSchema.build _ e) as [d0|] eqn:Hbuild; simpl; [|done].
    intros [= <- <-]. apply todoSchema_build_assigned in Hbuild as (? & ? & ?).
    done.
  - intros post d st' Hpost. destruct Hpost as [-> | [secret ->]].
    + unfold App.post_posts, try_catch.
      destruct (truthy (body req !! "title")); simpl; [|done].
      run_handler.
      destruct (postSchema.build _ e) as [d0|] eqn:Hbuild; simpl; [|done].
      intros [= <- <-]. apply postSchema_build_assigned in Hbuild as (? & ? & ?).
      done.
    + unfold Api.post_posts, try_catch.
      destruct (Api.key_differs _ _); simpl; [done|].
      destruct (truthy (body req !! "title")); simpl; [|done].
      run_handler.
      destruct (postSchema.build _ e) as [d0|] eqn:Hbuild; simpl; [|done].
      intros [= <- <-]. apply postSchema_build_assigned in Hbuild as (? & ? & ?).
      done.
Qed.

Lemma C10_create_reads_listed_fields_only_witness :
  let plain : gmap string json := {[ "title" := JStr "buy milk" ]} in
  let forged : gmap string json :=
    {[ "title" := JStr "buy milk"; "_id" := JStr "65f1c0de00000000000000ee";
       "id" := JStr "1"; "createdAt" := JNum sample_zero; "updatedAt" := JNum sample_zero ]} in
  let d := {| todo_id := "65f1c0de0000000000000002"; todo_title := Some "buy milk";
              todo_done := Some false; todo_createdAt := 2000;
              todo_updatedAt := 2000 |} in
  agree ["title"; "done"] plain forged
  ∧ App.post_todos (request_of "" forged) sample_env empty_store
      = App.post_todos (request_of "" plain) sample_env empty_store
  ∧ App.post_todos (request_of "" forged) sample_env empty_store
      = (status_json 201 (TodoJson d), {| Todos := [d]; Posts := [] |}).
Proof.
  assert (Hagree : agree ["title"; "done"] ({[ "title" := JStr "buy milk" ]} : gmap string json)
                     {[ "title" := JStr "buy milk"; "_id" := JStr "65f1c0de00000000000000ee";
                        "id" := JStr "1"; "createdAt" := JNum sample_zero; "updatedAt" := JNum sample_zero ]}).
  { repeat constructor. }
  split; [exact Hagree|]. split; [|reflexivity].
  destruct (C10_create_reads_listed_fields_only
              (request_of "" {[ "title" := JStr "buy milk" ]})
              {[ "title" := JStr "buy milk"; "_id" := JStr "65f1c0de00000000000000ee";
                 "id" := JStr "1"; "createdAt" := JNum sample_zero; "updatedAt" := JNum sample_zero ]}
              sample_env empty_store) as (Htodos & _).
  exact (proj1 (Htodos Hagree)).
Defined.

(** * Further properties of the handlers *)

(** ** Lookups, replacements and removals in a collection *)

Section CollectionFacts.
Context {D : Type} (model : Model D).

Lemma find_doc_None oid (l : list D) :
  find_doc model oid l = None ↔ oid ∉ _id <$> l.
Proof.
  induction l as [|x l IH]; csimpl.
  - split; [intros _; apply not_elem_of_nil | done].
  - rewrite not_elem_of_cons. case_bool_decide as Hx.
    + split; [done | intros [Hne _]; by destruct Hne].
    + rewrite IH. split; [intros Hl; split; [by intros ->| done] | by intros [_ Hl]].
Qed.

Lemma find_doc_elem_of oid (l : list D) d :
  find_doc model oid l = Some d → d ∈ l.
Proof.
  induction l as [|x l IH]; simpl; [done|].
  case_bool_decide.
  - intros [= <-]. apply list_elem_of_here.
  - intros Hd. apply list_elem_of_further. by apply IH.
Qed.

(** A document appended under an id that is not in use is the one found
    under that id, and the documents found under other ids are the same. *)
Lemma find_doc_app_new oid (l : list D) d :
  find_doc model oid l = None → _id d = oid →
  find_doc model oid (l ++ [d]) = Some d.
Proof.
  intros Hnone Hid. induction l as [|x l IH]; simpl in *.
  - by rewrite bool_decide_eq_true_2.
  - case_bool_decide; [done|]. by apply IH.
Qed.

Lemma find_doc_app_other oid (l : list D) d :
  _id d ≠ oid → find_doc model oid (l ++ [d]) = find_doc model oid l.
Proof.
  intros Hid. induction l as [|x l IH]; simpl.
  - by rewrite bool_decide_eq_false_2.
  - by case_bool_decide.
Qed.

(** Replacing a document by one of the same id keeps the ids of the
    collection, in their order. *)
Lemma replace_doc_ids oid d' (l : list D) :
  _id d' = oid → _id <$> replace_doc model oid d' l = _id <$> l.
Proof.
  intros Hid. induction l as [|x l IH]; csimpl; [done|].
  case_bool_decide as Hx; csimpl; [by rewrite Hid, Hx | by rewrite IH].
Qed.

Lemma replace_doc_other oid oid' d' (l : list D) :
  oid' ≠ oid → _id d' = oid →
  find_doc model oid' (replace_doc model oid d' l) = find_doc model oid' l.
Proof.
  intros Hne Hid. induction l as [|x l IH]; simpl; [done|].
  case_bool_decide as Hx; simpl.
  - rewrite !bool_decide_eq_false_2; [done| |]; congruence.
  - case_bool_decide; [done | apply IH].
Qed.

(** Removing under an id drops one document when the id is in use. *)
Lemma remove_doc_length oid (l : list D) d :
  find_doc model oid l = Some d →
  S (List.length (remove_doc model oid l)) = List.length l.
Proof.
  induction l as [|x l IH]; simpl; [done|].
  case_bool_decide; simpl; [done|]. intros Hd. by rewrite IH.
Qed.

Lemma remove_doc_other oid oid' (l : list D) :
  oid' ≠ oid →
  find_doc model oid' (remove_doc model oid l) = find_doc model oid' l.
Proof.
  intros Hne. induction l as [|x l IH]; simpl; [done|].
  case_bool_decide as Hx; simpl.
  - rewrite bool_decide_eq_false_2; [done | congruence].
  - case_bool_decide; [done | apply IH].
Qed.

Lemma remove_doc_ids_sublist oid (l : list D) :
  sublist (_id <$> remove_doc model oid l) (_id <$> l).
Proof.
  induction l as [|x l IH]; csimpl; [done|].
  case_bool_decide; csimpl.
  - by apply sublist_cons.
  - by apply sublist_skip.
Qed.

Lemma remove_doc_subseteq oid (l : list D) :
  remove_doc model oid l ⊆ l.
Proof.
  induction l as [|x l IH]; simpl; [done|].
  case_bool_decide; intros y Hy; apply elem_of_cons.
  - by right.
  - apply elem_of_cons in Hy as [-> | Hy]; [by left | right; by apply IH].
Qed.

(** With unique ids, the id of a removed document is in use no more. *)
Lemma remove_doc_gone oid (l : list D) :
  NoDup (_id <$> l) → find_doc model oid (remove_doc model oid l) = None.
Proof.
  induction l as [|x l IH]; csimpl; [done|].
  intros [Hx Hl]%NoDup_cons. case_bool_decide as Hid; simpl.
  - apply find_doc_None. by rewrite <- Hid.
  - rewrite bool_decide_eq_false_2 by done. by apply IH.
Qed.

End CollectionFacts.

(** A cast id casts to itself. *)
Lemma hex_digit_idemp c c' : hex_digit c = Some c' → hex_digit c' = Some c'.
Proof.
  unfold hex_digit.
  destruct c as [[] [] [] [] [] [] [] []]; intros [= <-]; reflexivity.
Qed.

Lemma hex_string_idemp s s' :
  hex_string s = Some s' → hex_string s' = Some s' ∧ String.length s' = String.length s.
Proof.
  revert s'. induction s as [|c s IH]; intros s'; simpl.
  - by intros [= <-].
  - destruct (hex_digit c) as [c'|] eqn:Hc; simpl; [|done].
    destruct (hex_string s) as [r|] eqn:Hr; simpl; [|done].
    intros [= <-]. destruct (IH r eq_refl) as [Hr' Hlen]. simpl.
    by rewrite (hex_digit_idemp _ _ Hc), Hr', Hlen.
Qed.

Lemma castObjectId_idemp id oid :
  castObjectId id = Some oid → castObjectId oid = Some oid.
Proof.
  unfold castObjectId. destruct (String.length id =? 24)%nat eqn:Hlen; [|done].
  intros [Hoid Hl]%hex_string_idemp. by rewrite Hl, Hlen.
Qed.

(** ** Deletion *)

(** X1: deleting a stored todo answers 200 with the confirmation and removes
    it; with unique ids in the collection, deleting it again answers 404, and
    so does fetching it.  Holds of [app.js] and of [api/index.js]. *)
Theorem delete_todos_then_not_found req e e' st oid d :
  castObjectId (params_id req) = Some oid →
  find_doc Todo oid (Todos st) = Some d →
  NoDup (todo_id <$> Todos st) →
  let st' := {| Todos := remove_doc Todo oid (Todos st); Posts := Posts st |} in
  App.delete_todos_id req e st = (res_json deleted, st')
  ∧ App.delete_todos_id req e' st' = (status_json 404 todo_missing, st')
  ∧ App.get_todos_id req e' st' = (status_json 404 todo_missing, st')
  ∧ Api.delete_todos_id req e st = (res_json deleted, st')
  ∧ Api.delete_todos_id req e' st' = (status_json 404 todo_missing, st').
Proof.
  intros Hid Hd Hunique st'.
  pose proof (remove_doc_gone Todo oid (Todos st) Hunique) as Hgone.
  unfold App.delete_todos_id, App.get_todos_id, Api.delete_todos_id.
  run_handler. rewrite Hid, Hd. simpl. rewrite Hgone. done.
Qed.

Lemma delete_todos_then_not_found_witness :
  let req := request_of "65F1C0DE0000000000000001" ∅ in
  let st' := {| Todos := []; Posts := [sample_post] |} in
  App.delete_todos_id req sample_env sample_store = (res_json deleted, st')
  ∧ App.delete_todos_id req sample_env st' = (status_json 404 todo_missing, st')
  ∧ App.get_todos_id req sample_env st' = (status_json 404 todo_missing, st').
Proof.
  pose proof (delete_todos_then_not_found
                (request_of "65F1C0DE0000000000000001" ∅) sample_env sample_env
                sample_store "65f1c0de0000000000000001" sample_todo
                eq_refl eq_refl) as Hdelete.
  assert (Hunique : NoDup (todo_id <$> Todos sample_store)).
  { apply NoDup_singleton. }
  destruct (Hdelete Hunique) as (H1 & H2 & H3 & _). auto.
Defined.

(** X2: deleting a stored post answers 200 with the confirmation and removes
    it; with unique ids, deleting it again answers 404, and so does fetching
    it.  In [api/index.js] this is what a request carrying the admin key
    gets. *)
Theorem delete_posts_then_not_found req e e' st oid d :
  castObjectId (params_id req) = Some oid →
  find_doc Post oid (Posts st) = Some d →
  NoDup (post_id <$> Posts st) →
  let st' := {| Todos := Todos st; Posts := remove_doc Post oid (Posts st) |} in
  App.delete_posts_id req e st = (res_json deleted, st')
  ∧ App.delete_posts_id req e' st' = (status_json 404 post_missing, st')
  ∧ App.get_posts_id req e' st' = (status_json 404 post_missing, st')
  ∧ ∀ secret, Api.key_differs secret (headers req !! "x-admin-key") = false →
      Api.delete_posts_id secret req e st = (res_json deleted, st')
      ∧ Api.delete_posts_id secret req e' st' = (status_json 404 post_missing, st')
      ∧ Api.get_posts_id req e' st' = (status_json 404 post_missing, st').
Proof.
  intros Hid Hd Hunique st'.
  pose proof (remove_doc_gone Post oid (Posts st) Hunique) as Hgone.
  unfold App.delete_posts_id, App.get_posts_id, Api.delete_posts_id, Api.get_posts_id.
  repeat (match goal with |- _ ∧ _ => split end);
    try (run_handler; rewrite Hid, ?Hd; simpl; by rewrite ?Hgone).
  intros secret Hkey. rewrite Hkey.
  repeat split; run_handler; rewrite Hid, ?Hd; simpl; by rewrite ?Hgone.
Qed.

Lemma delete_posts_then_not_found_witness :
  let req := keyed_request "dagu-admin-key" "65f1c0de00000000000000a1" ∅ in
  let st' := {| Todos := [sample_todo]; Posts := [] |} in
  App.delete_posts_id req sample_env sample_store = (res_json deleted, st')
  ∧ Api.delete_posts_id None req sample_env sample_store = (res_json deleted, st')
  ∧ Api.delete_posts_id None req sample_env st' = (status_json 404 post_missing, st').
Proof.
  pose proof (delete_posts_then_not_found
                (keyed_request "dagu-admin-key" "65f1c0de00000000000000a1" ∅)
                sample_env sample_env sample_store "65f1c0de00000000000000a1"
                sample_post eq_refl eq_refl) as Hdelete.
  assert (Hunique : NoDup (post_id <$> Posts sample_store)).
  { apply NoDup_singleton. }
  destruct (Hdelete Hunique) as (H1 & _ & _ & Hapi).
  destruct (Hapi None eq_refl) as (H2 & H3 & _). auto.
Defined.

(** X3: a delete removes one record and no other: the collection is one
    shorter, every other id resolves to the record it resolved to, and the
    other collection is the same.  When the id does not resolve nothing is
    removed. *)
Theorem delete_keeps_other_records req e st :
  let after_todo := (App.delete_todos_id req e st).2 in
  let after_post := (App.delete_posts_id req e st).2 in
  Posts after_todo = Posts st
  ∧ Todos after_post = Todos st
  ∧ (∀ oid', castObjectId (params_id req) ≠ Some oid' →
       find_doc Todo oid' (Todos after_todo) = find_doc Todo oid' (Todos st)
       ∧ find_doc Post oid' (Posts after_post) = find_doc Post oid' (Posts st))
  ∧ (if decide (status (App.delete_todos_id req e st).1 = 200%nat)
     then S (List.length (Todos after_todo)) = List.length (Todos st)
     else after_todo = st)
  ∧ (if decide (status (App.delete_posts_id req e st).1 = 200%nat)
     then S (List.length (Posts after_post)) = List.length (Posts st)
     else after_post = st).
Proof.
  unfold App.delete_todos_id, App.delete_posts_id. run_handler.
  destruct (castObjectId (params_id req)) as [oid|] eqn:Hid; simpl.
  2:{ repeat split; done. }
  destruct (find_doc Todo oid (Todos st)) as [t|] eqn:Ht;
    destruct (find_doc Post oid (Posts st)) as [p|] eqn:Hp; simpl;
    repeat (match goal with |- _ ∧ _ => split end); try done;
    try (intros oid' Hne; split; try done;
         apply (remove_doc_other _); congruence);
    try (by apply (remove_doc_length Todo _ _ t));
    try (by apply (remove_doc_length Post _ _ p)).
Qed.

(** ** Fetching by id *)

Lemma fresh_find_none e st :
  fresh_id e st →
  find_doc Todo (new_ObjectId e) (Todos st) = None
  ∧ find_doc Post (new_ObjectId e) (Posts st) = None.
Proof. intros [Ht Hp]. split; by apply find_doc_None. Qed.

(** X4: a record that a create answers with 201 is the record that a fetch of
    its id answers with, when the generated id is in the store's id format and
    in use by no stored record. *)
Theorem created_record_is_fetched req e e' st :
  castObjectId (new_ObjectId e) = Some (new_ObjectId e) →
  fresh_id e st →
  (∀ d st', App.post_todos req e st = (status_json 201 (TodoJson d), st') →
     App.get_todos_id (request_of (todo_id d) ∅) e' st' = (res_json (TodoJson d), st'))
  ∧ (∀ d st', App.post_posts req e st = (status_json 201 (PostJson d), st') →
     App.get_posts_id (request_of (post_id d) ∅) e' st' = (res_json (PostJson d), st'))
  ∧ (∀ secret d st',
       Api.post_posts secret req e st = (status_json 201 (PostJson d), st') →
       Api.get_posts_id (request_of (post_id d) ∅) e' st'
       = (res_json (PostJson d), st')).
Proof.
  intros Hcast [Htodo Hpost]%fresh_find_none.
  assert (Hposts : ∀ d st',
    App.post_posts req e st = (status_json 201 (PostJson d), st') →
    App.get_posts_id (request_of (post_id d) ∅) e' st' = (res_json (PostJson d), st')).
  { intros d st'. unfold App.post_posts, try_catch.
    destruct (truthy (body req !! "title")); simpl; [|done].
    run_handler.
    destruct (postSchema.build _ e) as [d0|] eqn:Hbuild; simpl; [|done].
    intros [= <- <-]. apply postSchema_build_assigned in Hbuild as (Hid & _).
    unfold App.get_posts_id. run_handler. simpl. rewrite Hid, Hcast. simpl.
    by rewrite (find_doc_app_new Post _ _ d0 Hpost Hid). }
  split; [|split; [exact Hposts|]].
  - intros d st'. unfold App.post_todos, try_catch.
    destruct (truthy (body req !! "title")); simpl; [|done].
    run_handler.
    destruct (todoSchema.build _ e) as [d0|] eqn:Hbuild; simpl; [|done].
    intros [= <- <-]. apply todoSchema_build_assigned in Hbuild as (Hid & _).
    unfold App.get_todos_id. run_handler. simpl. rewrite Hid, Hcast. simpl.
    by rewrite (find_doc_app_new Todo _ _ d0 Htodo Hid).
  - intros secret d st' Hcreated. apply Hposts.
    revert Hcreated. unfold Api.post_posts, App.post_posts, try_catch.
    by destruct (Api.key_differs _ _).
Qed.

Lemma created_record_is_fetched_witness :
  let req := request_of "" {[ "title" := JStr "Hello" ]} in
  let d := {| post_id := "65f1c0de0000000000000002"; post_title := Some "Hello";
              post_content := Some ""; post_tags := Some [];
              post_coverImage := Some ""; post_media := Some [];
              post_createdAt := 2000; post_updatedAt := 2000 |} in
  let st' := {| Todos := [sample_todo]; Posts := [sample_post; d] |} in
  (castObjectId (new_ObjectId sample_env) = Some (new_ObjectId sample_env)
   ∧ fresh_id sample_env sample_store)
  ∧ App.post_posts req sample_env sample_store = (status_json 201 (PostJson d), st')
  ∧ App.get_posts_id (request_of "65f1c0de0000000000000002" ∅) sample_env st'
    = (res_json (PostJson d), st').
Proof.
  assert (Hfresh : fresh_id sample_env sample_store).
  { split; [apply (proj1 (find_doc_None Todo _ _))
           | apply (proj1 (find_doc_None Post _ _))]; reflexivity. }
  split; [split; [reflexivity | exact Hfresh]|].
  split; [reflexivity|].
  destruct (created_record_is_fetched
              (request_of "" {[ "title" := JStr "Hello" ]}) sample_env sample_env
              sample_store eq_refl Hfresh) as (_ & Hposts & _).
  apply (Hposts _ _ eq_refl).
Defined.

(** X5: a fetch by id answers 200 exactly when the id resolves to a stored
    record, and then with a record of the collection whose id is the cast of
    the requested one; an id in the store's format that resolves to nothing is
    answered with 404.  The fetch of a post in [api/index.js] is the one of
    [app.js]. *)
Theorem get_by_id_found_iff_resolves req e st :
  (status (App.get_todos_id req e st).1 = 200%nat ↔ resolves Todo (params_id req) st)
  ∧ (status (App.get_posts_id req e st).1 = 200%nat ↔ resolves Post (params_id req) st)
  ∧ (∀ d, (App.get_todos_id req e st).1 = res_json (TodoJson d) →
       d ∈ Todos st ∧ castObjectId (params_id req) = Some (todo_id d))
  ∧ (∀ d, (App.get_posts_id req e st).1 = res_json (PostJson d) →
       d ∈ Posts st ∧ castObjectId (params_id req) = Some (post_id d))
  ∧ (is_Some (castObjectId (params_id req)) →
       (¬ resolves Todo (params_id req) st →
          (App.get_todos_id req e st).1 = status_json 404 todo_missing)
       ∧ (¬ resolves Post (params_id req) st →
          (App.get_posts_id req e st).1 = status_json 404 post_missing))
  ∧ Api.get_posts_id req e st = App.get_posts_id req e st.
Proof.
  unfold App.get_todos_id, App.get_posts_id, Api.get_posts_id, resolves.
  run_handler.
  destruct (castObjectId (params_id req)) as [oid|] eqn:Hid; simpl.
  - destruct (find_doc Todo oid (Todos st)) as [t|] eqn:Ht;
      destruct (find_doc Post oid (Posts st)) as [p|] eqn:Hp; simpl.
    all: repeat (match goal with |- _ ∧ _ => split | |- _ ↔ _ => split end).
    all: try done.
    all: try (intros _; by eauto).
    all: try (by intros (oid' & d & [= <-] & Hd); simpl in Hd; congruence).
    all: try (intros d [= <-]; split;
              [by eapply find_doc_elem_of
              | f_equal; symmetry;
                first [exact (find_doc_id Todo _ _ _ Ht)
                      | exact (find_doc_id Post _ _ _ Hp)]]).
    all: intros _; split; intros Hno; try done; destruct Hno; by eauto.
  - repeat (match goal with |- _ ∧ _ => split | |- _ ↔ _ => split end).
    all: try done.
    all: try (by intros (oid' & d & Hno & _)).
    all: try (by intros [? ?]).
Qed.

(** ** Updating, then fetching *)

(** X6: when an update by id is answered with 200, a fetch of the same id on
    the store it leaves is answered with the same record. *)
Theorem updated_record_is_fetched req e e' st :
  (status (App.put_todos_id req e st).1 = 200%nat →
     App.get_todos_id req e' (App.put_todos_id req e st).2
     = ((App.put_todos_id req e st).1, (App.put_todos_id req e st).2))
  ∧ (status (App.put_posts_id req e st).1 = 200%nat →
     App.get_posts_id req e' (App.put_posts_id req e st).2
     = ((App.put_posts_id req e st).1, (App.put_posts_id req e st).2))
  ∧ (∀ secret, status (Api.put_posts_id secret req e st).1 = 200%nat →
     Api.get_posts_id req e' (Api.put_posts_id secret req e st).2
     = ((Api.put_posts_id secret req e st).1, (Api.put_posts_id secret req e st).2)).
Proof.
  assert (Hposts : status (App.put_posts_id req e st).1 = 200%nat →
     App.get_posts_id req e' (App.put_posts_id req e st).2
     = ((App.put_posts_id req e st).1, (App.put_posts_id req e st).2)).
  { unfold App.put_posts_id, App.get_posts_id. run_handler.
    destruct (castObjectId (params_id req)) as [oid|] eqn:Hid; simpl; [|done].
    destruct (postSchema.castUpdate _) as [u|]; simpl; [|done].
    destruct (find_doc Post oid (Posts st)) as [d|] eqn:Hd; simpl; [|done].
    intros _. rewrite (find_doc_replace Post oid _ d); [done..|].
    simpl. by eapply (find_doc_id Post). }
  split; [|split; [exact Hposts|]].
  - unfold App.put_todos_id, App.get_todos_id. run_handler.
    destruct (castObjectId (params_id req)) as [oid|] eqn:Hid; simpl; [|done].
    destruct (todoSchema.castUpdate _) as [u|]; simpl; [|done].
    destruct (find_doc Todo oid (Todos st)) as [d|] eqn:Hd; simpl; [|done].
    intros _. rewrite (find_doc_replace Todo oid _ d); [done..|].
    simpl. by eapply (find_doc_id Todo).
  - intros secret.
    assert (Hsame : Api.put_posts_id secret req e st = App.put_posts_id req e st
                    ∨ status (Api.put_posts_id secret req e st).1 = 401%nat).
    { unfold Api.put_posts_id, App.put_posts_id, try_catch.
      destruct (Api.key_differs _ _); [by right | by left]. }
    destruct Hsame as [-> | H401]; [exact Hposts | rewrite H401; done].
Qed.

Lemma updated_record_is_fetched_witness :
  let req := request_of "65f1c0de0000000000000001"
               {[ "title" := JStr "buy oat milk"; "done" := JBool true ]} in
  let d' := {| todo_id := "65f1c0de0000000000000001"; todo_title := Some "buy oat milk";
               todo_done := Some true; todo_createdAt := 1000;
               todo_updatedAt := 2000 |} in
  let st' := {| Todos := [d']; Posts := [sample_post] |} in
  App.put_todos_id req sample_env sample_store = (res_json (TodoJson d'), st')
  ∧ App.get_todos_id req sample_env st' = (res_json (TodoJson d'), st').
Proof.
  split; [reflexivity|].
  destruct (updated_record_is_fetched
              (request_of "65f1c0de0000000000000001"
                 {[ "title" := JStr "buy oat milk"; "done" := JBool true ]})
              sample_env sample_env sample_store) as (Htodos & _).
  exact (Htodos eq_refl).
Defined.

(** ** What an update leaves in place *)

(** X7: an update by id neither adds nor removes a record, whatever the
    request and the answer: the ids of the collection, in their order, and
    the other collection are the same afterwards. *)
Theorem put_keeps_ids req e st :
  (todo_id <$> Todos (App.put_todos_id req e st).2 = todo_id <$> Todos st
   ∧ Posts (App.put_todos_id req e st).2 = Posts st)
  ∧ (todo_id <$> Todos (Api.put_todos_id req e st).2 = todo_id <$> Todos st
     ∧ Posts (Api.put_todos_id req e st).2 = Posts st)
  ∧ (post_id <$> Posts (App.put_posts_id req e st).2 = post_id <$> Posts st
     ∧ Todos (App.put_posts_id req e st).2 = Todos st)
  ∧ ∀ secret,
      post_id <$> Posts (Api.put_posts_id secret req e st).2 = post_id <$> Posts st
      ∧ Todos (Api.put_posts_id secret req e st).2 = Todos st.
Proof.
  assert (Htodo : ∀ fields r st',
    try_catch
      (updated ← findByIdAndUpdate Todo (params_id req) fields;
       match updated with
       | None => mret (status_json 404 todo_missing)
       | Some updated => mret (res_json (TodoJson updated))
       end)
      (λ err, status_json 500 server_error) e st = (r, st') →
    todo_id <$> Todos st' = todo_id <$> Todos st ∧ Posts st' = Posts st).
  { intros fields r st'. run_handler.
    destruct (castObjectId (params_id req)) as [oid|]; simpl; [|by intros [= _ <-]].
    destruct (todoSchema.castUpdate fields) as [u|]; simpl; [|by intros [= _ <-]].
    destruct (find_doc Todo oid (Todos st)) as [d|] eqn:Hd; simpl;
      intros [= _ <-]; [|done]. simpl. split; [|done].
    apply (replace_doc_ids Todo). simpl. by apply (find_doc_id Todo _ _ _ Hd). }
  assert (Hpost : ∀ fields r st',
    try_catch
      (updated ← findByIdAndUpdate Post (params_id req) fields;
       match updated with
       | None => mret (status_json 404 post_missing)
       | Some updated => mret (res_json (PostJson updated))
       end)
      (λ err, status_json 500 server_error) e st = (r, st') →
    post_id <$> Posts st' = post_id <$> Posts st ∧ Todos st' = Todos st).
  { intros fields r st'. run_handler.
    destruct (castObjectId (params_id req)) as [oid|]; simpl; [|by intros [= _ <-]].
    destruct (postSchema.castUpdate fields) as [u|]; simpl; [|by intros [= _ <-]].
    destruct (find_doc Post oid (Posts st)) as [d|] eqn:Hd; simpl;
      intros [= _ <-]; [|done]. simpl. split; [|done].
    apply (replace_doc_ids Post). simpl. by apply (find_doc_id Post _ _ _ Hd). }
  split; [|split; [|split]].
  - eapply Htodo. unfold App.put_todos_id. apply surjective_pairing.
  - eapply Htodo. unfold Api.put_todos_id. apply surjective_pairing.
  - eapply Hpost. unfold App.put_posts_id. apply surjective_pairing.
  - intros secret.
    destruct (Api.key_differs secret (headers req !! "x-admin-key")) eqn:Hkey.
    + unfold Api.put_posts_id, try_catch. by rewrite Hkey.
    + assert (Hsame : Api.put_posts_id secret req e st = App.put_posts_id req e st).
      { unfold Api.put_posts_id, App.put_posts_id, try_catch. by rewrite Hkey. }
      rewrite Hsame.
      eapply Hpost. unfold App.put_posts_id. apply surjective_pairing.
Qed.

(** X8: the todo update of [api/index.js] reads [done] and nothing else: two
    bodies with the same [done] get the same answer and leave the same store,
    and the title of a stored todo is never changed by it, whatever the body
    says. *)
Theorem Api_put_todos_reads_done_only req e st :
  (∀ b', body req !! "done" = b' !! "done" →
     Api.put_todos_id (with_body b' req) e st = Api.put_todos_id req e st)
  ∧ (∀ oid d, castObjectId (params_id req) = Some oid →
       find_doc Todo oid (Todos st) = Some d →
       ∃ d', find_doc Todo oid (Todos (Api.put_todos_id req e st).2) = Some d'
         ∧ todo_title d' = todo_title d).
Proof.
  split.
  - intros b' Hdone. unfold Api.put_todos_id, with_body; simpl. by rewrite Hdone.
  - intros oid d Hid Hd. pose proof (find_doc_id Todo _ _ _ Hd) as Hoid.
    unfold Api.put_todos_id. run_handler. rewrite Hid.
    destruct (todoSchema.castUpdate _) as [u|] eqn:Hu; simpl.
    2:{ exists d. by rewrite Hd. }
    rewrite Hd. simpl. eexists. split.
    { by apply (find_doc_replace Todo _ _ d). }
    revert Hu. unfold todoSchema.castUpdate.
    change (member _ "title") with (@None json). simpl.
    destruct (update_path _ _); simpl; [|done]. by intros [= <-].
Qed.

Lemma Api_put_todos_reads_done_only_witness :
  let id := "65f1c0de0000000000000001" in
  let b := {[ "done" := JBool true ]} : gmap string json in
  let b' := {[ "done" := JBool true; "title" := JStr "renamed" ]} : gmap string json in
  let d' := {| todo_id := id; todo_title := Some "buy milk"; todo_done := Some true;
               todo_createdAt := 1000; todo_updatedAt := 2000 |} in
  b !! "done" = b' !! "done"
  ∧ Api.put_todos_id (with_body b' (request_of id b)) sample_env sample_store
    = Api.put_todos_id (request_of id b) sample_env sample_store
  ∧ Api.put_todos_id (request_of id b') sample_env sample_store
    = (res_json (TodoJson d'), {| Todos := [d']; Posts := [sample_post] |}).
Proof.
  split; [reflexivity|]. split; [|reflexivity].
  destruct (Api_put_todos_reads_done_only
              (request_of "65f1c0de0000000000000001" {[ "done" := JBool true ]})
              sample_env sample_store) as [Hsame _].
  apply Hsame. reflexivity.
Defined.

(** ** What a create answers and persists *)

Lemma todoSchema_build_title fields e d :
  todoSchema.build fields e = Ok d → ∃ s, todo_title d = Some s ∧ s ≠ "".
Proof.
  unfold todoSchema.build.
  repeat (match goal with
          | |- context [set_path ?c ?x ?r] =>
              destruct (set_path c x r) as [?|] eqn:?; simpl; [|done]
          end).
  destruct (required_string _ _) as [[]|] eqn:Hreq; simpl; [|done].
  intros [= <-]. simpl. by apply required_string_ok in Hreq.
Qed.

Lemma postSchema_build_title fields e d :
  postSchema.build fields e = Ok d → ∃ s, post_title d = Some s ∧ s ≠ "".
Proof.
  unfold postSchema.build.
  repeat (match goal with
          | |- context [set_path ?c ?x ?r] =>
              destruct (set_path c x r) as [?|] eqn:?; simpl; [|done]
          end).
  destruct (required_string _ _) as [[]|] eqn:Hreq; simpl; [|done].
  destruct (postSchema.validateMedia _) as [[]|]; simpl; [|done].
  intros [= <-]. simpl. by apply required_string_ok in Hreq.
Qed.

(** X9: a POST /todos has three outcomes and no other.  It answers 400 with
    the validation message exactly when the title is falsy, and then, as when
    it answers 500, the store is the same; or it answers 201 with a record
    that has the generated id and a non-empty title, and the store is the old
    one with that record appended to the todos. *)
Theorem post_todos_outcomes req e st :
  ∀ post, post = App.post_todos ∨ post = Api.post_todos →
  let r := (post req e st).1 in
  let st' := (post req e st).2 in
  (truthy (body req !! "title") = false ↔ r = status_json 400 title_required)
  ∧ ((r = status_json 400 title_required ∧ st' = st)
     ∨ (r = status_json 500 server_error ∧ st' = st)
     ∨ (∃ d title,
          r = status_json 201 (TodoJson d)
          ∧ st' = {| Todos := Todos st ++ [d]; Posts := Posts st |}
          ∧ todo_id d = new_ObjectId e
          ∧ todo_title d = Some title ∧ title ≠ "")).
Proof.
  intros post Hpost.
  assert (Hsame : post req e st = App.post_todos req e st)
    by (by destruct Hpost as [-> | ->]).
  simpl. rewrite Hsame. clear post Hpost Hsame.
  unfold App.post_todos, try_catch.
  destruct (truthy (body req !! "title")) eqn:Htruthy; simpl.
  2:{ split; [done | by left]. }
  run_handler.
  destruct (todoSchema.build _ e) as [d|] eqn:Hbuild; simpl.
  - split; [done|]. right. right.
    destruct (todoSchema_build_title _ _ _ Hbuild) as (title & Htitle & Hne).
    apply todoSchema_build_assigned in Hbuild as (Hid & _).
    by exists d, title.
  - split; [done|]. right. by left.
Qed.

Lemma post_todos_outcomes_witness :
  let req := request_of "" {[ "title" := JArr [JStr "buy milk"] ]} in
  truthy (body req !! "title") = true
  ∧ App.post_todos req sample_env sample_store
    = (status_json 500 server_error, sample_store).
Proof.
  split; [reflexivity|].
  destruct (post_todos_outcomes
              (request_of "" {[ "title" := JArr [JStr "buy milk"] ]})
              sample_env sample_store App.post_todos (or_introl eq_refl))
    as [_ [[H400 _] | [[H500 Hst] | (d & title & H201 & _)]]].
  - discriminate H400.
  - reflexivity.
  - discriminate H201.
Defined.

(** In [api/index.js] a post route that writes answers 401 and leaves the
    store alone when the key differs, and otherwise does what the route of
    [app.js] does. *)
Lemma Api_post_posts_guard secret req e st :
  Api.post_posts secret req e st
  = if Api.key_differs secret (headers req !! "x-admin-key")
    then (status_json 401 unauthorized, st)
    else App.post_posts req e st.
Proof.
  unfold Api.post_posts, App.post_posts, try_catch.
  by destruct (Api.key_differs _ _).
Qed.

Lemma Api_put_posts_guard secret req e st :
  Api.put_posts_id secret req e st
  = if Api.key_differs secret (headers req !! "x-admin-key")
    then (status_json 401 unauthorized, st)
    else App.put_posts_id req e st.
Proof.
  unfold Api.put_posts_id, App.put_posts_id, try_catch.
  by destruct (Api.key_differs _ _).
Qed.

Lemma Api_delete_posts_guard secret req e st :
  Api.delete_posts_id secret req e st
  = if Api.key_differs secret (headers req !! "x-admin-key")
    then (status_json 401 unauthorized, st)
    else App.delete_posts_id req e st.
Proof.
  unfold Api.delete_posts_id, App.delete_posts_id, try_catch.
  by destruct (Api.key_differs _ _).
Qed.

(** X10: a POST /posts of [app.js] has three outcomes and no other.  It
    answers 400 with the validation message exactly when the title is falsy,
    and then, as when it answers 500, the store is the same; or it answers 201
    with a record that has the generated id, a non-empty title and, among its
    media, only valid entries as embedded documents (an item that the cast
    left in place, such as [null], is not validated), and the store is the old
    one with that record appended to the posts.  In [api/index.js] a fourth
    outcome comes first: 401 and the same store when the key differs. *)
Theorem post_posts_outcomes req e st :
  let r := (App.post_posts req e st).1 in
  let st' := (App.post_posts req e st).2 in
  (truthy (body req !! "title") = false ↔ r = status_json 400 title_required)
  ∧ ((r = status_json 400 title_required ∧ st' = st)
     ∨ (r = status_json 500 server_error ∧ st' = st)
     ∨ (∃ d title,
          r = status_json 201 (PostJson d)
          ∧ st' = {| Todos := Todos st; Posts := Posts st ++ [d] |}
          ∧ post_id d = new_ObjectId e
          ∧ post_title d = Some title ∧ title ≠ ""
          ∧ embedded_media_ok d))
  ∧ ∀ secret,
      Api.post_posts secret req e st
      = if Api.key_differs secret (headers req !! "x-admin-key")
        then (status_json 401 unauthorized, st)
        else App.post_posts req e st.
Proof.
  simpl. split; [|split; [|intros secret; apply Api_post_posts_guard]];
    unfold App.post_posts, try_catch;
    destruct (truthy (body req !! "title")) eqn:Htruthy; simpl;
    try done; try (by left).
  - run_handler. by destruct (postSchema.build _ e).
  - run_handler.
    destruct (postSchema.build _ e) as [d|] eqn:Hbuild; simpl.
    + right. right.
      destruct (postSchema_build_title _ _ _ Hbuild) as (title & Htitle & Hne).
      pose proof (postSchema_build_media_ok _ _ _ Hbuild) as Hmedia.
      apply postSchema_build_assigned in Hbuild as (Hid & _).
      by exists d, title.
    + right. by left.
Qed.

(** X11: a POST /posts whose body holds a non-empty title and none of
    [content], [tags], [coverImage] and [media] is answered with 201 and a
    record that has the schema's defaults: empty content, no tags, empty cover
    image and no media.  In [api/index.js] this is what a request carrying the
    admin key gets. *)
Theorem post_posts_defaults req e st title :
  body req !! "title" = Some (JStr title) →
  title ≠ "" →
  body req !! "content" = None → body req !! "tags" = None →
  body req !! "coverImage" = None → body req !! "media" = None →
  let d := {| post_id := new_ObjectId e; post_title := Some title;
              post_content := Some ""; post_tags := Some [];
              post_coverImage := Some ""; post_media := Some [];
              post_createdAt := Date_now e; post_updatedAt := Date_now e |} in
  let st' := {| Todos := Todos st; Posts := Posts st ++ [d] |} in
  App.post_posts req e st = (status_json 201 (PostJson d), st')
  ∧ ∀ secret, Api.key_differs secret (headers req !! "x-admin-key") = false →
      Api.post_posts secret req e st = (status_json 201 (PostJson d), st').
Proof.
  intros Htitle Hne Hcontent Htags Hcover Hmedia d st'.
  assert (Happ : App.post_posts req e st = (status_json 201 (PostJson d), st')).
  { unfold App.post_posts, try_catch.
    rewrite Htitle, Hcontent, Htags, Hcover, Hmedia. simpl.
    destruct (String.eqb_spec title ""); [done|]. simpl.
    run_handler. unfold postSchema.build.
    change (member _ "title") with (Some (JStr title)).
    change (member _ "content") with (@None json).
    change (member _ "tags") with (@None json).
    change (member _ "coverImage") with (@None json).
    change (member _ "media") with (@None json).
    simpl. by destruct (String.eqb_spec title ""). }
  split; [exact Happ|].
  intros secret Hkey. by rewrite Api_post_posts_guard, Hkey.
Qed.

Lemma post_posts_defaults_witness :
  let req := keyed_request "s3cret" "" {[ "title" := JStr "Hello" ]} in
  let d := {| post_id := "65f1c0de0000000000000002"; post_title := Some "Hello";
              post_content := Some ""; post_tags := Some [];
              post_coverImage := Some ""; post_media := Some [];
              post_createdAt := 2000; post_updatedAt := 2000 |} in
  (body req !! "title" = Some (JStr "Hello") ∧ "Hello" ≠ "")
  ∧ Api.post_posts (Some "s3cret") req sample_env empty_store
    = (status_json 201 (PostJson d), {| Todos := []; Posts := [d] |}).
Proof.
  split; [split; [reflexivity | discriminate]|].
  destruct (post_posts_defaults
              (keyed_request "s3cret" "" {[ "title" := JStr "Hello" ]})
              sample_env empty_store "Hello") as [_ Hapi];
    [reflexivity | discriminate | reflexivity..|].
  exact (Hapi (Some "s3cret") eq_refl).
Defined.

(** ** Listings *)

(** X12: GET /todos and GET /posts always answer 200, with every record of
    the collection exactly once and the later created first; the store is the
    same afterwards.  An empty collection is answered with the empty list. *)
Theorem listings_sorted_and_complete req e st :
  (∃ listed,
     App.get_todos req e st = (res_json (TodosJson listed), st)
     ∧ Api.get_todos req e st = (res_json (TodosJson listed), st)
     ∧ StronglySorted (createdAt_desc Todo) listed
     ∧ listed ≡ₚ Todos st
     ∧ (Todos st = [] → listed = []))
  ∧ (∃ listed,
       App.get_posts req e st = (res_json (PostsJson listed), st)
       ∧ Api.get_posts req e st = (res_json (PostsJson listed), st)
       ∧ StronglySorted (createdAt_desc Post) listed
       ∧ listed ≡ₚ Posts st
       ∧ (Posts st = [] → listed = [])).
Proof.
  split.
  - exists (merge_sort (createdAt_desc Todo) (Todos st)).
    destruct (find_sort_sorted Todo (Todos st)) as [Hsorted Hperm].
    repeat split; try done.
    intros Hnil. by rewrite Hnil.
  - exists (merge_sort (createdAt_desc Post) (Posts st)).
    destruct (find_sort_sorted Post (Posts st)) as [Hsorted Hperm].
    repeat split; try done.
    intros Hnil. by rewrite Hnil.
Qed.

(** ** What the handlers do to the store *)

(** Every route on todos takes a todo step. *)
Lemma todo_handlers_step req e st h :
  h ∈ App_todo_handlers ++ Api_todo_handlers → todo_step e st (h req e st).2.
Proof.
  unfold App_todo_handlers, Api_todo_handlers. simpl.
  assert (Hcreate : todo_step e st (App.post_todos req e st).2).
  { unfold App.post_todos, try_catch.
    destruct (truthy (body req !! "title")); simpl; [|by apply todo_same].
    run_handler.
    destruct (todoSchema.build _ e) as [d|] eqn:Hbuild; simpl; [|by apply todo_same].
    apply todoSchema_build_assigned in Hbuild as (Hid & _).
    by apply (todo_added _ _ _ d). }
  assert (Hlist : todo_step e st (App.get_todos req e st).2) by (by apply todo_same).
  assert (Hupdate : ∀ fields,
    todo_step e st
      (try_catch
         (updated ← findByIdAndUpdate Todo (params_id req) fields;
          match updated with
          | None => mret (status_json 404 todo_missing)
          | Some updated => mret (res_json (TodoJson updated))
          end)
         (λ err, status_json 500 server_error) e st).2).
  { intros fields. run_handler.
    destruct (castObjectId (params_id req)) as [oid|]; simpl; [|by apply todo_same].
    destruct (todoSchema.castUpdate fields) as [u|]; simpl; [|by apply todo_same].
    destruct (find_doc Todo oid (Todos st)) as [d|] eqn:Hd; simpl;
      [|by apply todo_same].
    eapply (todo_replaced _ _ _ oid d); [done| |done].
    simpl. by apply (find_doc_id Todo _ _ _ Hd). }
  assert (Hdelete : todo_step e st (App.delete_todos_id req e st).2).
  { unfold App.delete_todos_id. run_handler.
    destruct (castObjectId (params_id req)) as [oid|]; simpl; [|by apply todo_same].
    destruct (find_doc Todo oid (Todos st)) as [d|]; simpl; [|by apply todo_same].
    by apply (todo_removed _ _ _ oid). }
  assert (Hget : todo_step e st (App.get_todos_id req e st).2).
  { unfold App.get_todos_id. run_handler.
    destruct (castObjectId (params_id req)) as [oid|]; simpl; [|by apply todo_same].
    destruct (find_doc Todo oid (Todos st)); by apply todo_same. }
  rewrite !elem_of_cons, elem_of_nil.
  intros [-> | [-> | [-> | [-> | [-> | [-> | [-> | [-> | [-> | []]]]]]]]]];
    try done; try apply Hupdate.
Qed.

(** Every route on posts takes a post step. *)
Lemma post_handlers_step req e st h :
  h ∈ App_post_handlers ∨ (∃ secret, h ∈ Api_post_handlers secret) →
  post_step e st (h req e st).2.
Proof.
  assert (Hcreate : post_step e st (App.post_posts req e st).2).
  { unfold App.post_posts, try_catch.
    destruct (truthy (body req !! "title")); simpl; [|by apply post_same].
    run_handler.
    destruct (postSchema.build _ e) as [d|] eqn:Hbuild; simpl; [|by apply post_same].
    apply postSchema_build_assigned in Hbuild as (Hid & _).
    by apply (post_added _ _ _ d). }
  assert (Hlist : post_step e st (App.get_posts req e st).2) by (by apply post_same).
  assert (Hupdate : post_step e st (App.put_posts_id req e st).2).
  { unfold App.put_posts_id. run_handler.
    destruct (castObjectId (params_id req)) as [oid|]; simpl; [|by apply post_same].
    destruct (postSchema.castUpdate _) as [u|]; simpl; [|by apply post_same].
    destruct (find_doc Post oid (Posts st)) as [d|] eqn:Hd; simpl;
      [|by apply post_same].
    eapply (post_replaced _ _ _ oid d); [done| |done].
    simpl. by apply (find_doc_id Post _ _ _ Hd). }
  assert (Hdelete : post_step e st (App.delete_posts_id req e st).2).
  { unfold App.delete_posts_id. run_handler.
    destruct (castObjectId (params_id req)) as [oid|]; simpl; [|by apply post_same].
    destruct (find_doc Post oid (Posts st)) as [d|]; simpl; [|by apply post_same].
    by apply (post_removed _ _ _ oid). }
  assert (Hget : post_step e st (App.get_posts_id req e st).2).
  { unfold App.get_posts_id. run_handler.
    destruct (castObjectId (params_id req)) as [oid|]; simpl; [|by apply post_same].
    destruct (find_doc Post oid (Posts st)); by apply post_same. }
  unfold App_post_handlers, Api_post_handlers.
  intros [Happ | [secret Hapi]].
  - revert Happ. rewrite !elem_of_cons, elem_of_nil.
    by intros [-> | [-> | [-> | [-> | [-> | []]]]]].
  - revert Hapi. rewrite !elem_of_cons, elem_of_nil.
    intros [-> | [-> | [-> | [-> | [-> | []]]]]]; try done.
    + rewrite Api_post_posts_guard.
      destruct (Api.key_differs _ _); [by apply post_same | done].
    + rewrite Api_put_posts_guard.
      destruct (Api.key_differs _ _); [by apply post_same | done].
    + rewrite Api_delete_posts_guard.
      destruct (Api.key_differs _ _); [by apply post_same | done].
Qed.

Lemma NoDup_app_new {A} (l : list A) x : NoDup l → x ∉ l → NoDup (l ++ [x]).
Proof.
  intros Hl Hx. apply NoDup_app. split; [done|]. split; [|apply NoDup_singleton].
  intros y Hy ->%list_elem_of_singleton. done.
Qed.

(** X13: the handlers keep the ids of each collection unique, as long as the
    id generated for a new document is in use in neither: after any route of
    [app.js] or [api/index.js] on todos or posts no two stored todos, and no
    two stored posts, have the same id. *)
Theorem unique_ids_preserved req e st h :
  unique_ids st → fresh_id e st →
  h ∈ App_todo_handlers ++ Api_todo_handlers
  ∨ h ∈ App_post_handlers ∨ (∃ secret, h ∈ Api_post_handlers secret) →
  unique_ids (h req e st).2.
Proof.
  intros [Htodos Hposts] [Hft Hfp] [Hh | Hh].
  - destruct (todo_handlers_step req e st h Hh)
      as [-> | d Hid -> | oid d d' Hd Hid -> | oid ->];
      split; simpl; try done.
    + rewrite fmap_app. simpl. apply NoDup_app_new; [done | by rewrite Hid].
    + by rewrite (replace_doc_ids Todo).
    + exact (sublist_NoDup _ _ Htodos (remove_doc_ids_sublist Todo oid _)).
  - destruct (post_handlers_step req e st h Hh)
      as [-> | d Hid -> | oid d d' Hd Hid -> | oid ->];
      split; simpl; try done.
    + rewrite fmap_app. simpl. apply NoDup_app_new; [done | by rewrite Hid].
    + by rewrite (replace_doc_ids Post).
    + exact (sublist_NoDup _ _ Hposts (remove_doc_ids_sublist Post oid _)).
Qed.

(** X15: the two collections are independent: no route on todos changes the
    posts, and no route on posts changes the todos, whatever the request and
    the answer. *)
Theorem collections_independent req e st h :
  (h ∈ App_todo_handlers ++ Api_todo_handlers → Posts (h req e st).2 = Posts st)
  ∧ (h ∈ App_post_handlers ∨ (∃ secret, h ∈ Api_post_handlers secret) →
     Todos (h req e st).2 = Todos st).
Proof.
  split; intros Hh.
  - by destruct (todo_handlers_step req e st h Hh)
      as [-> | d Hid -> | oid d d' Hd Hid -> | oid ->].
  - by destruct (post_handlers_step req e st h Hh)
      as [-> | d Hid -> | oid d d' Hd Hid -> | oid ->].
Qed.

Lemma unique_ids_preserved_witness :
  let req := request_of "" {[ "title" := JStr "walk" ]} in
  (unique_ids sample_store ∧ fresh_id sample_env sample_store)
  ∧ unique_ids (App.post_todos req sample_env sample_store).2.
Proof.
  assert (Hunique : unique_ids sample_store).
  { split; apply NoDup_singleton. }
  assert (Hfresh : fresh_id sample_env sample_store).
  { split; [apply (proj1 (find_doc_None Todo _ _))
           | apply (proj1 (find_doc_None Post _ _))]; reflexivity. }
  split; [by split|].
  apply (unique_ids_preserved (request_of "" {[ "title" := JStr "walk" ]})
           sample_env sample_store App.post_todos Hunique Hfresh).
  left. apply list_elem_of_here.
Defined.

Lemma collections_independent_witness :
  let req := request_of "65f1c0de0000000000000001" ∅ in
  Todos (App.delete_todos_id req sample_env sample_store).2 = []
  ∧ Posts (App.delete_todos_id req sample_env sample_store).2 = Posts sample_store.
Proof.
  split; [reflexivity|].
  apply (collections_independent (request_of "65f1c0de0000000000000001" ∅)
           sample_env sample_store App.delete_todos_id).
  do 4 apply list_elem_of_further. apply list_elem_of_here.
Defined.

(** ** The media of stored posts *)

(** X14: every route but the post update keeps the embedded media entries of
    the stored posts valid: if every media entry that is an embedded document
    of a stored post is valid before a request to a todo route, to a listing
    or a fetch, to POST /posts or to DELETE /posts/:id, the same holds after
    it.  (An item that the cast left in place, such as [null], is not an
    embedded document and is not constrained.) *)
Theorem media_kept_valid_except_by_update req e st h :
  all_embedded_media_ok st →
  h ∈ App_todo_handlers ++ Api_todo_handlers
  ∨ h ∈ [App.get_posts; App.post_posts; App.get_posts_id; App.delete_posts_id]
  ∨ (∃ secret, h ∈ [Api.get_posts; Api.post_posts secret; Api.get_posts_id;
                    Api.delete_posts_id secret]) →
  all_embedded_media_ok (h req e st).2.
Proof.
  unfold all_embedded_media_ok. intros Hok.
  assert (Hcreate : Forall embedded_media_ok (Posts (App.post_posts req e st).2)).
  { destruct (App_post_posts_media_ok req e st) as [(d & -> & Hd) | ->]; [|done].
    simpl. apply Forall_app. split; [done|]. by apply Forall_singleton. }
  assert (Hdelete : Forall embedded_media_ok (Posts (App.delete_posts_id req e st).2)).
  { unfold App.delete_posts_id. run_handler.
    destruct (castObjectId (params_id req)) as [oid|]; simpl; [|done].
    destruct (find_doc Post oid (Posts st)) as [d|]; simpl; [|done].
    rewrite Forall_forall in Hok |- *. intros p Hp. apply Hok.
    by apply (remove_doc_subseteq Post oid). }
  assert (Hget : (App.get_posts_id req e st).2 = st).
  { unfold App.get_posts_id. run_handler.
    destruct (castObjectId (params_id req)) as [oid|]; simpl; [|done].
    by destruct (find_doc Post oid (Posts st)). }
  intros [Hh | [Hh | [secret Hh]]].
  - destruct (todo_handlers_step req e st h Hh)
      as [-> | d Hid -> | oid d d' Hd Hid -> | oid ->]; done.
  - revert Hh. rewrite !elem_of_cons, elem_of_nil.
    intros [-> | [-> | [-> | [-> | []]]]]; try done. by rewrite Hget.
  - revert Hh. rewrite !elem_of_cons, elem_of_nil.
    intros [-> | [-> | [-> | [-> | []]]]]; try done.
    + rewrite Api_post_posts_guard. by destruct (Api.key_differs _ _).
    + change (Api.get_posts_id req e st) with (App.get_posts_id req e st).
      by rewrite Hget.
    + rewrite Api_delete_posts_guard. by destruct (Api.key_differs _ _).
Qed.

Lemma media_kept_valid_except_by_update_witness :
  let req := request_of "" {[ "title" := JStr "Hello"; "media" := JArr [JNull] ]} in
  all_embedded_media_ok sample_store
  ∧ post_media <$> Posts (App.post_posts req sample_env sample_store).2
    = [post_media sample_post; Some [Skipped JNull]]
  ∧ all_embedded_media_ok (App.post_posts req sample_env sample_store).2.
Proof.
  assert (Hok : all_embedded_media_ok sample_store).
  { apply Forall_singleton, Forall_singleton. intros m [= <-].
    exists "image", "https://img.example/1.png".
    split; [reflexivity|]. split; [apply list_elem_of_here|].
    split; [reflexivity | discriminate]. }
  split; [exact Hok|]. split; [reflexivity|].
  apply (media_kept_valid_except_by_update
           (request_of "" {[ "title" := JStr "Hello"; "media" := JArr [JNull] ]})
           sample_env sample_store App.post_posts Hok).
  right. left. apply list_elem_of_further, list_elem_of_here.
Defined.

(** ** The admin key of [api/index.js] *)

(** X16: in [api/index.js] an update or a delete of a post whose
    [x-admin-key] header is absent or differs from [ADMIN_KEY] is answered
    with 401 and leaves the store alone, whatever the id and the body; with
    the key, both do what the routes of [app.js] do. *)
Theorem Api_post_writes_need_key secret req e st :
  (headers req !! "x-admin-key" ≠ Some (Api.ADMIN_KEY secret) →
     Api.put_posts_id secret req e st = (status_json 401 unauthorized, st)
     ∧ Api.delete_posts_id secret req e st = (status_json 401 unauthorized, st))
  ∧ (headers req !! "x-admin-key" = Some (Api.ADMIN_KEY secret) →
     Api.put_posts_id secret req e st = App.put_posts_id req e st
     ∧ Api.delete_posts_id secret req e st = App.delete_posts_id req e st).
Proof.
  rewrite Api_put_posts_guard, Api_delete_posts_guard. unfold Api.key_differs.
  split; intros Hkey.
  - by rewrite bool_decide_eq_false_2.
  - by rewrite bool_decide_eq_true_2.
Qed.

Lemma Api_post_writes_need_key_witness :
  let req := keyed_request "guess" "65f1c0de00000000000000a1" ∅ in
  headers req !! "x-admin-key" ≠ Some (Api.ADMIN_KEY (Some "s3cret"))
  ∧ Api.delete_posts_id (Some "s3cret") req sample_env sample_store
    = (status_json 401 unauthorized, sample_store).
Proof.
  assert (Hkey : headers (keyed_request "guess" "65f1c0de00000000000000a1" ∅)
                   !! "x-admin-key" ≠ Some (Api.ADMIN_KEY (Some "s3cret"))).
  { discriminate. }
  split; [exact Hkey|].
  destruct (Api_post_writes_need_key (Some "s3cret")
              (keyed_request "guess" "65f1c0de00000000000000a1" ∅)
              sample_env sample_store) as [Hdenied _].
  exact (proj2 (Hdenied Hkey)).
Defined.

(** X17: [ADMIN_KEY] is the configured [process.env.ADMIN_KEY] when that is
    set and not empty, and 'dagu-admin-key' otherwise; it is never empty.  The
    key check passes exactly when the header is present and equal to it, so a
    request without the header, or with an empty one, never passes. *)
Theorem Api_ADMIN_KEY_fallback secret :
  Api.ADMIN_KEY secret ≠ ""
  ∧ (∀ k, secret = Some k → k ≠ "" → Api.ADMIN_KEY secret = k)
  ∧ (secret = None ∨ secret = Some "" → Api.ADMIN_KEY secret = "dagu-admin-key")
  ∧ (∀ key, Api.key_differs secret key = false ↔ key = Some (Api.ADMIN_KEY secret))
  ∧ Api.key_differs secret None = true
  ∧ Api.key_differs secret (Some "") = true.
Proof.
  assert (Hne : Api.ADMIN_KEY secret ≠ "").
  { unfold Api.ADMIN_KEY. destruct secret as [k|]; [|done].
    by destruct (String.eqb_spec k ""). }
  repeat (match goal with |- _ ∧ _ => split end); try done.
  - intros k -> Hk. unfold Api.ADMIN_KEY. by destruct (String.eqb_spec k "").
  - by intros [-> | ->].
  - intros key. unfold Api.key_differs. case_bool_decide; split; done.
  - unfold Api.key_differs. rewrite bool_decide_eq_false_2; [done|].
    intros [= Hempty]. by destruct Hne.
Qed.

Lemma Api_ADMIN_KEY_fallback_witness :
  Api.ADMIN_KEY (Some "s3cret") = "s3cret"
  ∧ Api.ADMIN_KEY (Some "") = "dagu-admin-key".
Proof.
  destruct (Api_ADMIN_KEY_fallback (Some "s3cret")) as (_ & Hset & _).
  destruct (Api_ADMIN_KEY_fallback (Some "")) as (_ & _ & Hunset & _).
  split; [apply Hset; [reflexivity | discriminate] | apply Hunset; by right].
Defined.

(** ** The upload route *)

(** X18: the upload of [api/index.js] checks the key first, then the file,
    and only then passes the buffer to the media host.  Without the key the
    answer is 401 whatever the file and the host; with the key and no file it
    is 400 whatever the host.  The answer is 200 exactly when the key matches,
    a file was sent and the host called back with a result, and it then
    carries the url, the id and the kind of that result; no other status than
    200, 400, 401 and 500 is ever sent. *)
Theorem upload_checks secret host req :
  let r := Upload.post_upload secret host req in
  (Upload.upload_headers req !! "x-admin-key" ≠ Some (Api.ADMIN_KEY secret) →
     r = {| Upload.upload_status := 401;
            Upload.upload_sent := Upload.UploadMessage "未授权：管理密钥错误" |})
  ∧ (Upload.upload_headers req !! "x-admin-key" = Some (Api.ADMIN_KEY secret) →
     Upload.file req = None →
     r = {| Upload.upload_status := 400;
            Upload.upload_sent := Upload.UploadMessage "没有收到文件" |})
  ∧ (Upload.upload_status r = 200%nat ↔
       Upload.upload_headers req !! "x-admin-key" = Some (Api.ADMIN_KEY secret)
       ∧ ∃ buffer result,
           Upload.file req = Some buffer
           ∧ host buffer = Upload.CallbackResult result
           ∧ Upload.upload_sent r
             = Upload.UploadedJson (Upload.secure_url result)
                 (Upload.public_id result) (Upload.resource_type result))
  ∧ Upload.upload_status r ∈ [200; 400; 401; 500]%nat.
Proof.
  simpl. unfold Upload.post_upload, Api.key_differs.
  assert (Hlisted : ∀ n : nat, n ∈ [200; 400; 401; 500]%nat ↔
            n = 200%nat ∨ n = 400%nat ∨ n = 401%nat ∨ n = 500%nat).
  { intros n. rewrite !elem_of_cons, elem_of_nil. tauto. }
  case_bool_decide as Hkey; simpl.
  - destruct (Upload.file req) as [buffer|] eqn:Hfile.
    + destruct (host buffer) as [| |result] eqn:Hhost; simpl.
      all: repeat (match goal with |- _ ∧ _ => split | |- _ ↔ _ => split end).
      all: try done.
      all: try (by intros (_ & buffer' & result' & [= <-] & Hres & _); congruence).
      all: try (apply Hlisted; tauto).
      intros _. split; [done|]. by exists buffer, result.
    + repeat (match goal with |- _ ∧ _ => split | |- _ ↔ _ => split end).
      all: try done.
      all: try (by intros (_ & buffer' & result' & Hnone & _)).
      all: try (apply Hlisted; tauto).
  - repeat (match goal with |- _ ∧ _ => split | |- _ ↔ _ => split end).
    all: try done.
    all: try (by intros (Hsome & _)).
    all: try (apply Hlisted; tauto).
Qed.

Lemma upload_checks_witness :
  let req := {| Upload.upload_headers := {[ "x-admin-key" := "guess" ]};
                Upload.file := Some [] |} in
  let host := λ _ : list Byte.byte, Upload.CallbackError in
  Upload.upload_headers req !! "x-admin-key" ≠ Some (Api.ADMIN_KEY None)
  ∧ Upload.post_upload None host req
    = {| Upload.upload_status := 401;
         Upload.upload_sent := Upload.UploadMessage "未授权：管理密钥错误" |}.
Proof.
  assert (Hkey : ({[ "x-admin-key" := "guess" ]} : gmap string string)
                   !! "x-admin-key" ≠ Some (Api.ADMIN_KEY None)).
  { discriminate. }
  split; [exact Hkey|].
  destruct (upload_checks None (λ _, Upload.CallbackError)
              {| Upload.upload_headers := {[ "x-admin-key" := "guess" ]};
                 Upload.file := Some [] |}) as [Hdenied _].
  exact (Hdenied Hkey).
Defined.

(** ** Post creation in the earlier [app.js] *)

(** X19: in the earlier [app.js] no post can be created: the handler reads
    [ADMIN_KEY], which that file does not declare, so every POST /posts ends
    in the [catch] block, is answered with 500 and leaves the store alone,
    whatever the header and the body. *)
Theorem earlier_post_posts_always_500 uri req e st :
  EarlierPosts.post_posts uri req e st = (status_json 500 server_error, st).
Proof.
  unfold EarlierPosts.post_posts, EarlierPosts.identifier, EarlierPosts.top_level.
  by rewrite lookup_singleton_ne.
Qed.

(** ** A todo created with [done] *)

(** X20: a POST /todos whose body holds a non-empty title and a boolean
    [done] is answered with 201 and a record that has that title and that
    [done], the generated id, and the time of the request as both
    timestamps; the record is appended to the todos. *)
Theorem post_todos_done_supplied req e st title b :
  body req !! "title" = Some (JStr title) →
  title ≠ "" →
  body req !! "done" = Some (JBool b) →
  let d := {| todo_id := new_ObjectId e; todo_title := Some title;
              todo_done := Some b; todo_createdAt := Date_now e;
              todo_updatedAt := Date_now e |} in
  let st' := {| Todos := Todos st ++ [d]; Posts := Posts st |} in
  App.post_todos req e st = (status_json 201 (TodoJson d), st')
  ∧ Api.post_todos req e st = (status_json 201 (TodoJson d), st').
Proof.
  intros Htitle Hne Hdone d st'.
  unfold App.post_todos, Api.post_todos, try_catch.
  rewrite Htitle, Hdone. simpl.
  destruct (String.eqb_spec title ""); [done|]. simpl.
  run_handler. unfold todoSchema.build.
  change (member _ "title") with (Some (JStr title)).
  change (member _ "done") with (Some (JBool b)).
  simpl. by destruct (String.eqb_spec title "").
Qed.

Lemma post_todos_done_supplied_witness :
  let req := request_of "" {[ "title" := JStr "walk"; "done" := JBool true ]} in
  let d := {| todo_id := "65f1c0de0000000000000002"; todo_title := Some "walk";
              todo_done := Some true; todo_createdAt := 2000;
              todo_updatedAt := 2000 |} in
  (body req !! "title" = Some (JStr "walk") ∧ "walk" ≠ ""
   ∧ body req !! "done" = Some (JBool true))
  ∧ App.post_todos req sample_env empty_store
    = (status_json 201 (TodoJson d), {| Todos := [d]; Posts := [] |}).
Proof.
  split; [split; [reflexivity | split; [discriminate | reflexivity]]|].
  apply (post_todos_done_supplied
           (request_of "" {[ "title" := JStr "walk"; "done" := JBool true ]})
           sample_env empty_store "walk" true);
    [reflexivity | discriminate | reflexivity].
Defined.
